(** * digitalocean/api.go: request construction and response validation

    A shallow embedding of [api.go] (package [digitalocean]): [NewClient],
    [Client.NewRequest], [parseErr], [decodeBody] and [checkResp], followed
    by the properties of the package.

    [api.go] is a thin layer over the Go standard library, and what it
    guarantees depends on what the library does.  The parts of the library
    it calls are therefore modelled too, function by function, after the
    library's sources (go1.21): [strings], [unicode/utf8], [encoding/json]
    (the scanner, and the decoder at the one target type [*DoError]),
    [net/url] ([Parse], [String], [Values], escaping), [net/http]
    ([NewRequest], [Header.Add]), [io/ioutil] ([ReadAll]) and [fmt]
    ([Errorf] with [%s]).  [strconv.Quote], which only shapes the text of
    some library errors and needs the Unicode tables, is a parameter.

    Go strings are byte sequences: they are modelled by [string], whose
    characters ([ascii]) are the 256 byte values.  Go maps are [gmap]s.
    Pointers that may be nil are [option]s.  An [error] result is an
    [option error], [None] being Go's [nil].  A response body is a stateful
    stream: its model records what is still to be read and which
    operations have been performed on it. *)

From Stdlib Require Import ZArith NArith Ascii String List Bool Lia.
From stdpp Require Import base option list gmap strings sorting.

Local Open Scope Z_scope.

(* ================================================================== *)
(** * Bytes *)

Module Byte_.

Definition val (c : ascii) : Z := Z.of_N (N_of_ascii c).

Definition of_Z (z : Z) : ascii := ascii_of_N (Z.to_N (z mod 256)).

Definition eqb (a b : ascii) : bool := Ascii.eqb a b.

(** [lo <= c && c <= hi] on bytes. *)
Definition between (lo hi c : ascii) : bool :=
  (val lo <=? val c) && (val c <=? val hi).

Definition isDigit (c : ascii) : bool := between "0" "9" c.
Definition isLower (c : ascii) : bool := between "a" "z" c.
Definition isUpper (c : ascii) : bool := between "A" "Z" c.
Definition isAlpha (c : ascii) : bool := isLower c || isUpper c.
Definition isHex (c : ascii) : bool :=
  isDigit c || between "a" "f" c || between "A" "F" c.

Definition lowerhex : string := "0123456789abcdef".
Definition upperhex : string := "0123456789ABCDEF".

(** [digits[i]] for [0 <= i < 16]. *)
Definition hexdigit (digits : string) (i : Z) : ascii :=
  match String.get (Z.to_nat i) digits with
  | Some c => c
  | None => "0"%char
  end.

End Byte_.

(* ================================================================== *)
(** * Package [strings] *)

Module strings.

Definition singleton (c : ascii) : string := String c EmptyString.

Fixpoint HasPrefix (s prefix : string) : bool :=
  match prefix, s with
  | EmptyString, _ => true
  | String p prefix', String c s' => Byte_.eqb p c && HasPrefix s' prefix'
  | String _ _, EmptyString => false
  end.

Fixpoint TrimPrefixLen (n : nat) (s : string) : string :=
  match n, s with
  | O, _ => s
  | S n', String _ s' => TrimPrefixLen n' s'
  | S _, EmptyString => EmptyString
  end.

(** [strings.Contains(s, string(c))], also [strings.IndexByte(s, c) >= 0]. *)
Fixpoint ContainsByte (s : string) (c : ascii) : bool :=
  match s with
  | EmptyString => false
  | String a s' => Byte_.eqb a c || ContainsByte s' c
  end.

(** [strings.Count(s, string(c))]. *)
Fixpoint CountByte (s : string) (c : ascii) : Z :=
  match s with
  | EmptyString => 0
  | String a s' => (if Byte_.eqb a c then 1 else 0) + CountByte s' c
  end.

(** [strings.Cut(s, string(sep))]: the text before and after the first
    [sep], and whether [sep] was found. *)
Fixpoint Cut (s : string) (sep : ascii) : string * string * bool :=
  match s with
  | EmptyString => (EmptyString, EmptyString, false)
  | String a s' =>
      if Byte_.eqb a sep then (EmptyString, s', true)
      else let '(before, after, found) := Cut s' sep in
           (String a before, after, found)
  end.

(** [strings.LastIndex(s, string(sep))] as a cut: [Some (s[:i], s[i+1:])]
    for the last index [i] of [sep], [None] for [-1]. *)
Fixpoint CutLast (s : string) (sep : ascii) : option (string * string) :=
  match s with
  | EmptyString => None
  | String a s' =>
      match CutLast s' sep with
      | Some (before, after) => Some (String a before, after)
      | None => if Byte_.eqb a sep then Some (EmptyString, s') else None
      end
  end.

(** [strings.Index(s, sub)] as a cut at the first occurrence of [sub]:
    [Some (s[:i], s[i:])]. *)
Fixpoint CutAt (s sub : string) : option (string * string) :=
  if HasPrefix s sub then Some (EmptyString, s)
  else match s with
       | EmptyString => None
       | String a s' =>
           match CutAt s' sub with
           | Some (before, rest) => Some (String a before, rest)
           | None => None
           end
       end.

Fixpoint HasSuffixByte (s : string) (c : ascii) : bool :=
  match s with
  | EmptyString => false
  | String a EmptyString => Byte_.eqb a c
  | String _ s' => HasSuffixByte s' c
  end.

(** [s[:len(s)-1]]. *)
Fixpoint dropLast (s : string) : string :=
  match s with
  | EmptyString => EmptyString
  | String _ EmptyString => EmptyString
  | String a s' => String a (dropLast s')
  end.

Definition toLowerByte (c : ascii) : ascii :=
  if Byte_.isUpper c then Byte_.of_Z (Byte_.val c + 32) else c.

Definition toUpperByte (c : ascii) : ascii :=
  if Byte_.isLower c then Byte_.of_Z (Byte_.val c - 32) else c.

(** [strings.ToLower] on a string of ASCII bytes (the only use here is on
    a URL scheme, which consists of ASCII letters, digits, [+], [-], [.]). *)
Fixpoint ToLower (s : string) : string :=
  match s with
  | EmptyString => EmptyString
  | String a s' => String (toLowerByte a) (ToLower s')
  end.

Fixpoint forallb (p : ascii -> bool) (s : string) : bool :=
  match s with
  | EmptyString => true
  | String a s' => p a && forallb p s'
  end.

Fixpoint rev_append (acc s : string) : string :=
  match acc with
  | EmptyString => s
  | String a acc' => rev_append acc' (String a s)
  end.

(** [strings.Join(l, string(sep))]. *)
Fixpoint Join (l : list string) (sep : string) : string :=
  match l with
  | [] => EmptyString
  | [x] => x
  | x :: l' => x +:+ sep +:+ Join l' sep
  end.

End strings.

(* ================================================================== *)
(** * Errors

    The values of Go's [error] interface that reach this package.  The
    only thing the package does with an error is to return it or to
    format it with [%s], which calls its [Error] method. *)

Inductive error : Type :=
| errorString (s : string)
    (** [*errors.errorString]: the result of [errors.New] and of
        [fmt.Errorf] without [%w] *)
| SyntaxError (msg : string) (Offset : Z)
    (** [*json.SyntaxError] *)
| UnmarshalTypeError (Value Type_ : string) (Offset : Z) (Struct Field : string)
    (** [*json.UnmarshalTypeError]; [Type_] is [Type.String()] *)
| foreignError (dyntype msg : string)
    (** an error value of any other dynamic type, with the text its
        [Error] method returns: transport failures, failures of the body
        reader, [*url.Error], ... *).

Definition Error (e : error) : string :=
  match e with
  | errorString s => s
  | SyntaxError msg _ => msg
  | UnmarshalTypeError Value Type_ _ Struct Field =>
      if negb (String.eqb Struct "") || negb (String.eqb Field "") then
        "json: cannot unmarshal " +:+ Value +:+ " into Go struct field "
          +:+ Struct +:+ "." +:+ Field +:+ " of type " +:+ Type_
      else
        "json: cannot unmarshal " +:+ Value +:+ " into Go value of type " +:+ Type_
  | foreignError _ msg => msg
  end.

(** [fmt.Errorf(prefix + "%s", err)] for a non-nil [err]. *)
Definition Errorf_s (prefix : string) (err : error) : error :=
  errorString (prefix +:+ Error err).

#[global] Instance error_eq_dec : EqDecision error.
Proof. solve_decision. Defined.

(* ================================================================== *)
(** * Package [unicode/utf8] *)

Module utf8.

Definition RuneError : Z := 65533.   (* U+FFFD *)

(** The encoding of U+FFFD: the bytes EF BF BD. *)
Definition RuneErrorBytes : string :=
  String (Byte_.of_Z 239) (String (Byte_.of_Z 191) (String (Byte_.of_Z 189) "")).

(** [utf8.AppendRune(nil, r)] *)
Definition EncodeRune (r : Z) : string :=
  let b := Byte_.of_Z in
  if r <? 0 then RuneErrorBytes
  else if r <? 128 then strings.singleton (b r)
  else if r <? 2048 then
    String (b (192 + Z.shiftr r 6)) (String (b (128 + Z.land r 63)) "")
  else if (55296 <=? r) && (r <=? 57343) then RuneErrorBytes
  else if r <? 65536 then
    String (b (224 + Z.shiftr r 12))
      (String (b (128 + Z.land (Z.shiftr r 6) 63))
         (String (b (128 + Z.land r 63)) ""))
  else if r <=? 1114111 then
    String (b (240 + Z.shiftr r 18))
      (String (b (128 + Z.land (Z.shiftr r 12) 63))
         (String (b (128 + Z.land (Z.shiftr r 6) 63))
            (String (b (128 + Z.land r 63)) "")))
  else RuneErrorBytes.

Definition inRange (lo hi : Z) (c : ascii) : bool :=
  (lo <=? Byte_.val c) && (Byte_.val c <=? hi).

(** The width of the encoding that [utf8.DecodeRuneInString(s)] accepts at
    the start of [s]; [0] when the bytes there are not a valid encoding
    (Go then yields [RuneError] with width 1). *)
Definition validWidth (s : string) : nat :=
  match s with
  | EmptyString => 0%nat
  | String c0 s1 =>
      let v := Byte_.val c0 in
      if v <? 128 then 1%nat
      else if v <? 194 then 0%nat
      else if v <? 224 then
        match s1 with
        | String c1 _ => if inRange 128 191 c1 then 2%nat else 0%nat
        | _ => 0%nat
        end
      else if v <? 240 then
        let lo := if v =? 224 then 160 else 128 in
        let hi := if v =? 237 then 159 else 191 in
        match s1 with
        | String c1 (String c2 _) =>
            if inRange lo hi c1 && inRange 128 191 c2 then 3%nat else 0%nat
        | _ => 0%nat
        end
      else if v <? 245 then
        let lo := if v =? 240 then 144 else 128 in
        let hi := if v =? 244 then 143 else 191 in
        match s1 with
        | String c1 (String c2 (String c3 _)) =>
            if inRange lo hi c1 && inRange 128 191 c2 && inRange 128 191 c3
            then 4%nat else 0%nat
        | _ => 0%nat
        end
      else 0%nat
  end.

End utf8.

(* ================================================================== *)
(** * Package [encoding/json], at the target type [*DoError] *)

(** DoError is the error format that they return to us if there is a
    problem. *)
Record DoError : Type := mkDoError {
  Id : string;        (* `json:"id"` *)
  Message : string    (* `json:"message"` *)
}.

#[global] Instance DoError_eq_dec : EqDecision DoError.
Proof. solve_decision. Defined.

Module json.

(** ** scanner.go *)

Inductive scanCode : Type :=
| scanContinue | scanBeginLiteral | scanBeginObject | scanObjectKey
| scanObjectValue | scanEndObject | scanBeginArray | scanArrayValue
| scanEndArray | scanSkipSpace | scanEnd | scanError.

Inductive parseState : Type :=
| parseObjectKey | parseObjectValue | parseArrayValue.

(** The values of the scanner's [step] field. *)
Inductive stepFn : Type :=
| stateBeginValueOrEmpty | stateBeginValue | stateBeginStringOrEmpty
| stateBeginString | stateEndValue | stateEndTop
| stateInString | stateInStringEsc
| stateInStringEscU | stateInStringEscU1 | stateInStringEscU12
| stateInStringEscU123
| stateNeg | state1 | state0 | stateDot | stateDot0
| stateE | stateESign | stateE0
| stateT | stateTr | stateTru
| stateF | stateFa | stateFal | stateFals
| stateN | stateNu | stateNul
| stateError.

Record scanner : Type := mkScanner {
  step : stepFn;
  endTop : bool;
  parseStack : list parseState;   (* top of the stack first *)
  err : option error;
  bytes : Z
}.

Definition maxNestingDepth : Z := 10000.

Definition isSpace (c : ascii) : bool :=
  Byte_.eqb c " " || Byte_.eqb c "009" || Byte_.eqb c "013" || Byte_.eqb c "010".

(** [strconv.Quote(string(c))[1:len-1]] for a byte [c] other than the
    double quote: [c] is converted to the rune of the same value. *)
Definition quoteByteBody (c : ascii) : string :=
  let v := Byte_.val c in
  if Byte_.eqb c "\" then "\\"
  else if ((32 <=? v) && (v <=? 126))
          || ((161 <=? v) && (v <=? 255) && negb (v =? 173)) then utf8.EncodeRune v
  else if v =? 7 then "\a"
  else if v =? 8 then "\b"
  else if v =? 12 then "\f"
  else if v =? 10 then "\n"
  else if v =? 13 then "\r"
  else if v =? 9 then "\t"
  else if v =? 11 then "\v"
  else if (v <? 32) || (v =? 127) then
    "\x" +:+ String (Byte_.hexdigit Byte_.lowerhex (Z.shiftr v 4))
                    (String (Byte_.hexdigit Byte_.lowerhex (Z.land v 15)) "")
  else
    "\u00" +:+ String (Byte_.hexdigit Byte_.lowerhex (Z.shiftr v 4))
                      (String (Byte_.hexdigit Byte_.lowerhex (Z.land v 15)) "").

(** quoteChar formats c as a quoted character literal. *)
Definition quoteChar (c : ascii) : string :=
  if Byte_.eqb c "'" then "'\''"
  else if Byte_.eqb c "034" then String "'" (String "034" (String "'" ""))
  else "'" +:+ quoteByteBody c +:+ "'".

(** [s.error(c, context)] *)
Definition scan_error (s : scanner) (c : ascii) (context : string)
  : scanner * scanCode :=
  ({| step := stateError; endTop := endTop s; parseStack := parseStack s;
      err := Some (SyntaxError ("invalid character " +:+ quoteChar c +:+ " " +:+ context)
                               (bytes s));
      bytes := bytes s |}, scanError).

Definition set_step (s : scanner) (f : stepFn) : scanner :=
  {| step := f; endTop := endTop s; parseStack := parseStack s;
     err := err s; bytes := bytes s |}.

Definition set_stack (s : scanner) (ps : list parseState) : scanner :=
  {| step := step s; endTop := endTop s; parseStack := ps;
     err := err s; bytes := bytes s |}.

Definition pushParseState (s : scanner) (c : ascii) (newParseState : parseState)
  (successState : scanCode) : scanner * scanCode :=
  let s := set_stack s (newParseState :: parseStack s) in
  if Z.of_nat (length (parseStack s)) <=? maxNestingDepth then (s, successState)
  else scan_error s c "exceeded max depth".

Definition popParseState (s : scanner) : scanner :=
  let ps := tail (parseStack s) in
  match ps with
  | [] => {| step := stateEndTop; endTop := true; parseStack := ps;
             err := err s; bytes := bytes s |}
  | _ => {| step := stateEndValue; endTop := endTop s; parseStack := ps;
            err := err s; bytes := bytes s |}
  end.

Definition do_stateEndTop (s : scanner) (c : ascii) : scanner * scanCode :=
  if negb (isSpace c) then (fst (scan_error s c "after top-level value"), scanEnd)
  else (s, scanEnd).

Definition do_stateEndValue (s : scanner) (c : ascii) : scanner * scanCode :=
  match parseStack s with
  | [] =>
      do_stateEndTop {| step := stateEndTop; endTop := true; parseStack := [];
                        err := err s; bytes := bytes s |} c
  | ps :: rest =>
      if isSpace c then (set_step s stateEndValue, scanSkipSpace)
      else match ps with
           | parseObjectKey =>
               if Byte_.eqb c ":" then
                 (set_step (set_stack s (parseObjectValue :: rest)) stateBeginValue,
                  scanObjectKey)
               else scan_error s c "after object key"
           | parseObjectValue =>
               if Byte_.eqb c "," then
                 (set_step (set_stack s (parseObjectKey :: rest)) stateBeginString,
                  scanObjectValue)
               else if Byte_.eqb c "}" then (popParseState s, scanEndObject)
               else scan_error s c "after object key:value pair"
           | parseArrayValue =>
               if Byte_.eqb c "," then (set_step s stateBeginValue, scanArrayValue)
               else if Byte_.eqb c "]" then (popParseState s, scanEndArray)
               else scan_error s c "after array element"
           end
  end.

Definition do_stateBeginValue (s : scanner) (c : ascii) : scanner * scanCode :=
  if isSpace c then (s, scanSkipSpace)
  else if Byte_.eqb c "{" then
    pushParseState (set_step s stateBeginStringOrEmpty) c parseObjectKey scanBeginObject
  else if Byte_.eqb c "[" then
    pushParseState (set_step s stateBeginValueOrEmpty) c parseArrayValue scanBeginArray
  else if Byte_.eqb c "034" then (set_step s stateInString, scanBeginLiteral)
  else if Byte_.eqb c "-" then (set_step s stateNeg, scanBeginLiteral)
  else if Byte_.eqb c "0" then (set_step s state0, scanBeginLiteral)
  else if Byte_.eqb c "t" then (set_step s stateT, scanBeginLiteral)
  else if Byte_.eqb c "f" then (set_step s stateF, scanBeginLiteral)
  else if Byte_.eqb c "n" then (set_step s stateN, scanBeginLiteral)
  else if Byte_.between "1" "9" c then (set_step s state1, scanBeginLiteral)
  else scan_error s c "looking for beginning of value".

Definition do_stateBeginString (s : scanner) (c : ascii) : scanner * scanCode :=
  if isSpace c then (s, scanSkipSpace)
  else if Byte_.eqb c "034" then (set_step s stateInString, scanBeginLiteral)
  else scan_error s c "looking for beginning of object key string".

Definition do_state0 (s : scanner) (c : ascii) : scanner * scanCode :=
  if Byte_.eqb c "." then (set_step s stateDot, scanContinue)
  else if Byte_.eqb c "e" || Byte_.eqb c "E" then (set_step s stateE, scanContinue)
  else do_stateEndValue s c.

Definition do_stateESign (s : scanner) (c : ascii) : scanner * scanCode :=
  if Byte_.isDigit c then (set_step s stateE0, scanContinue)
  else scan_error s c "in exponent of numeric literal".

(** One letter of a [true], [false] or [null] literal. *)
Definition expect (s : scanner) (c want : ascii) (next : stepFn) (context : string)
  : scanner * scanCode :=
  if Byte_.eqb c want then (set_step s next, scanContinue)
  else scan_error s c context.

Definition expectHex (s : scanner) (c : ascii) (next : stepFn) : scanner * scanCode :=
  if Byte_.isHex c then (set_step s next, scanContinue)
  else scan_error s c "in \u hexadecimal character escape".

(** [s.step(s, c)] *)
Definition do_step (s : scanner) (c : ascii) : scanner * scanCode :=
  match step s with
  | stateBeginValueOrEmpty =>
      if isSpace c then (s, scanSkipSpace)
      else if Byte_.eqb c "]" then do_stateEndValue s c
      else do_stateBeginValue s c
  | stateBeginValue => do_stateBeginValue s c
  | stateBeginStringOrEmpty =>
      if isSpace c then (s, scanSkipSpace)
      else if Byte_.eqb c "}" then
        do_stateEndValue (set_stack s (parseObjectValue :: tail (parseStack s))) c
      else do_stateBeginString s c
  | stateBeginString => do_stateBeginString s c
  | stateEndValue => do_stateEndValue s c
  | stateEndTop => do_stateEndTop s c
  | stateInString =>
      if Byte_.eqb c "034" then (set_step s stateEndValue, scanContinue)
      else if Byte_.eqb c "\" then (set_step s stateInStringEsc, scanContinue)
      else if Byte_.val c <? 32 then scan_error s c "in string literal"
      else (s, scanContinue)
  | stateInStringEsc =>
      if Byte_.eqb c "b" || Byte_.eqb c "f" || Byte_.eqb c "n" || Byte_.eqb c "r"
         || Byte_.eqb c "t" || Byte_.eqb c "\" || Byte_.eqb c "/" || Byte_.eqb c "034"
      then (set_step s stateInString, scanContinue)
      else if Byte_.eqb c "u" then (set_step s stateInStringEscU, scanContinue)
      else scan_error s c "in string escape code"
  | stateInStringEscU => expectHex s c stateInStringEscU1
  | stateInStringEscU1 => expectHex s c stateInStringEscU12
  | stateInStringEscU12 => expectHex s c stateInStringEscU123
  | stateInStringEscU123 => expectHex s c stateInString
  | stateNeg =>
      if Byte_.eqb c "0" then (set_step s state0, scanContinue)
      else if Byte_.between "1" "9" c then (set_step s state1, scanContinue)
      else scan_error s c "in numeric literal"
  | state1 =>
      if Byte_.isDigit c then (set_step s state1, scanContinue)
      else do_state0 s c
  | state0 => do_state0 s c
  | stateDot =>
      if Byte_.isDigit c then (set_step s stateDot0, scanContinue)
      else scan_error s c "after decimal point in numeric literal"
  | stateDot0 =>
      if Byte_.isDigit c then (s, scanContinue)
      else if Byte_.eqb c "e" || Byte_.eqb c "E" then (set_step s stateE, scanContinue)
      else do_stateEndValue s c
  | stateE =>
      if Byte_.eqb c "+" || Byte_.eqb c "-" then (set_step s stateESign, scanContinue)
      else do_stateESign s c
  | stateESign => do_stateESign s c
  | stateE0 =>
      if Byte_.isDigit c then (s, scanContinue)
      else do_stateEndValue s c
  | stateT => expect s c "r" stateTr "in literal true (expecting 'r')"
  | stateTr => expect s c "u" stateTru "in literal true (expecting 'u')"
  | stateTru => expect s c "e" stateEndValue "in literal true (expecting 'e')"
  | stateF => expect s c "a" stateFa "in literal false (expecting 'a')"
  | stateFa => expect s c "l" stateFal "in literal false (expecting 'l')"
  | stateFal => expect s c "s" stateFals "in literal false (expecting 's')"
  | stateFals => expect s c "e" stateEndValue "in literal false (expecting 'e')"
  | stateN => expect s c "u" stateNu "in literal null (expecting 'u')"
  | stateNu => expect s c "l" stateNul "in literal null (expecting 'l')"
  | stateNul => expect s c "l" stateEndValue "in literal null (expecting 'l')"
  | stateError => (s, scanError)
  end.

(** [s.eof()] *)
Definition eof (s : scanner) : scanner * scanCode :=
  match err s with
  | Some _ => (s, scanError)
  | None =>
      if endTop s then (s, scanEnd)
      else
        let s := fst (do_step s " ") in
        if endTop s then (s, scanEnd)
        else match err s with
             | Some _ => (s, scanError)
             | None =>
                 ({| step := step s; endTop := endTop s; parseStack := parseStack s;
                     err := Some (SyntaxError "unexpected end of JSON input" (bytes s));
                     bytes := bytes s |}, scanError)
             end
  end.

Definition is_scanError (c : scanCode) : bool :=
  match c with scanError => true | _ => false end.

Fixpoint checkValid_loop (data : string) (scan : scanner) : option error :=
  match data with
  | EmptyString =>
      let '(scan, code) := eof scan in
      if is_scanError code then err scan else None
  | String c data' =>
      let scan := {| step := step scan; endTop := endTop scan;
                     parseStack := parseStack scan; err := err scan;
                     bytes := bytes scan + 1 |} in
      let '(scan, code) := do_step scan c in
      if is_scanError code then err scan else checkValid_loop data' scan
  end.

(** [checkValid(data, &d.scan)] on a fresh [decodeState]. *)
Definition checkValid (data : string) : option error :=
  checkValid_loop data
    {| step := stateBeginValue; endTop := false; parseStack := [];
       err := None; bytes := 0 |}.

(** ** decode.go

    [Unmarshal] first runs [checkValid] over the whole input and decodes
    only input that passed.  The decoder is modelled on the tokens of the
    validated input; each token carries the read offset that
    [UnmarshalTypeError.Offset] reports for it. *)

Inductive token : Type :=
| TBeginObject (off : Z) | TEndObject
| TBeginArray (off : Z) | TEndArray
| TColon | TComma
| TString (raw : string) (off : Z)  (* the bytes between the quotes *)
| TNumber (off : Z) | TTrue (off : Z) | TFalse (off : Z) | TNull (off : Z).

Inductive lexmode : Type :=
| LTop
| LString (acc : string) (esc : bool)  (* bytes so far, last first *)
| LLiteral (first : ascii).

Definition literalToken (first : ascii) (off : Z) : token :=
  if Byte_.eqb first "t" then TTrue off
  else if Byte_.eqb first "f" then TFalse off
  else if Byte_.eqb first "n" then TNull off
  else TNumber off.

Definition isLiteralByte (c : ascii) : bool :=
  Byte_.isDigit c || Byte_.isAlpha c
  || Byte_.eqb c "." || Byte_.eqb c "+" || Byte_.eqb c "-".

(** The byte [c] at offset [pos], outside of any literal. *)
Definition lexTopByte (c : ascii) (pos : Z) : list token * lexmode :=
  if isSpace c then ([], LTop)
  else if Byte_.eqb c "{" then ([TBeginObject (pos + 1)], LTop)
  else if Byte_.eqb c "}" then ([TEndObject], LTop)
  else if Byte_.eqb c "[" then ([TBeginArray (pos + 1)], LTop)
  else if Byte_.eqb c "]" then ([TEndArray], LTop)
  else if Byte_.eqb c ":" then ([TColon], LTop)
  else if Byte_.eqb c "," then ([TComma], LTop)
  else if Byte_.eqb c "034" then ([], LString EmptyString false)
  else ([], LLiteral c).

Fixpoint lex (data : string) (pos : Z) (m : lexmode) : list token :=
  match data with
  | EmptyString =>
      match m with
      | LLiteral first => [literalToken first pos]
      | _ => []
      end
  | String c rest =>
      match m with
      | LString acc esc =>
          if esc then lex rest (pos + 1) (LString (String c acc) false)
          else if Byte_.eqb c "034" then
            TString (strings.rev_append acc EmptyString) (pos + 1)
              :: lex rest (pos + 1) LTop
          else lex rest (pos + 1) (LString (String c acc) (Byte_.eqb c "\"))
      | LLiteral first =>
          if isLiteralByte c then lex rest (pos + 1) m
          else
            let '(ts, m') := lexTopByte c pos in
            literalToken first pos :: ts ++ lex rest (pos + 1) m'
      | LTop =>
          let '(ts, m') := lexTopByte c pos in
          ts ++ lex rest (pos + 1) m'
      end
  end.

Definition tokens (data : string) : list token := lex data 0 LTop.

(** *** Unquoting a string literal *)

Definition hexval (c : ascii) : Z :=
  if Byte_.isDigit c then Byte_.val c - 48
  else if Byte_.between "a" "f" c then Byte_.val c - 97 + 10
  else if Byte_.between "A" "F" c then Byte_.val c - 65 + 10
  else (-1).

(** getu4 decodes \uXXXX from the beginning of s, returning the hex value,
    or it returns -1. *)
Definition getu4 (s : string) : Z :=
  match s with
  | String b (String u (String h1 (String h2 (String h3 (String h4 _))))) =>
      if negb (Byte_.eqb b "\") || negb (Byte_.eqb u "u") then (-1)
      else if Byte_.isHex h1 && Byte_.isHex h2 && Byte_.isHex h3 && Byte_.isHex h4
      then ((hexval h1 * 16 + hexval h2) * 16 + hexval h3) * 16 + hexval h4
      else (-1)
  | _ => (-1)
  end.

Definition utf16_IsSurrogate (r : Z) : bool := (55296 <=? r) && (r <? 57344).

Definition utf16_DecodeRune (r1 r2 : Z) : Z :=
  if (55296 <=? r1) && (r1 <? 56320) && (56320 <=? r2) && (r2 <? 57344)
  then Z.shiftl (r1 - 55296) 10 + (r2 - 56320) + 65536
  else utf8.RuneError.

Definition drop (n : nat) (s : string) : string :=
  String.substring n (String.length s - n) s.

Definition take (n : nat) (s : string) : string := String.substring 0 n s.

(** The second loop of [unquoteBytes], on the bytes between the quotes;
    [None] is its [ok = false]. *)
Fixpoint unquote_loop (fuel : nat) (s : string) : option string :=
  match fuel with
  | O => match s with EmptyString => Some EmptyString | _ => None end
  | S fuel' =>
      match s with
      | EmptyString => Some EmptyString
      | String c s1 =>
          if Byte_.eqb c "\" then
            match s1 with
            | EmptyString => None
            | String e s2 =>
                let lit (b : ascii) := String b <$> unquote_loop fuel' s2 in
                if Byte_.eqb e "034" || Byte_.eqb e "\" || Byte_.eqb e "/"
                   || Byte_.eqb e "'" then lit e
                else if Byte_.eqb e "b" then lit "008"%char
                else if Byte_.eqb e "f" then lit "012"%char
                else if Byte_.eqb e "n" then lit "010"%char
                else if Byte_.eqb e "r" then lit "013"%char
                else if Byte_.eqb e "t" then lit "009"%char
                else if Byte_.eqb e "u" then
                  let rr := getu4 s in
                  if rr <? 0 then None
                  else
                    let s6 := drop 6 s in
                    if utf16_IsSurrogate rr then
                      let dec := utf16_DecodeRune rr (getu4 s6) in
                      if negb (dec =? utf8.RuneError) then
                        String.append (utf8.EncodeRune dec)
                          <$> unquote_loop fuel' (drop 6 s6)
                      else
                        String.append (utf8.EncodeRune utf8.RuneError)
                          <$> unquote_loop fuel' s6
                    else String.append (utf8.EncodeRune rr) <$> unquote_loop fuel' s6
                else None
            end
          else if Byte_.eqb c "034" || (Byte_.val c <? 32) then None
          else if Byte_.val c <? 128 then String c <$> unquote_loop fuel' s1
          else
            match utf8.validWidth s with
            | O => String.append utf8.RuneErrorBytes <$> unquote_loop fuel' s1
            | n => String.append (take n s) <$> unquote_loop fuel' (drop n s)
            end
      end
  end.

Definition unquote (raw : string) : option string :=
  unquote_loop (String.length raw) raw.

(** *** Struct fields *)

Inductive field : Type := fieldId | fieldMessage.

Definition field_name (f : field) : string :=
  match f with fieldId => "id" | fieldMessage => "message" end.

(** [foldName]: every rune is replaced by the smallest rune of its
    simple-folding orbit.  ASCII letters fold to upper case; the two runes
    outside ASCII whose orbit contains an ASCII letter are U+017F (long s,
    bytes C5 BF) and U+212A (Kelvin sign, bytes E2 84 AA).  Every other rune
    folds to a rune outside ASCII and is kept as it is here: it equals no
    byte of a folded ASCII field name either way. *)
Fixpoint foldName (s : string) : string :=
  match s with
  | EmptyString => EmptyString
  | String c s1 =>
      let v := Byte_.val c in
      match s1 with
      | String c1 s2 =>
          if (v =? 197) && (Byte_.val c1 =? 191) then String "S" (foldName s2)
          else
            match s2 with
            | String c2 s3 =>
                if (v =? 226) && (Byte_.val c1 =? 132) && (Byte_.val c2 =? 170)
                then String "K" (foldName s3)
                else String (strings.toUpperByte c) (foldName s1)
            | EmptyString => String (strings.toUpperByte c) (foldName s1)
            end
      | EmptyString => String (strings.toUpperByte c) EmptyString
      end
  end.

(** [fields.byExactName[key]], then [fields.byFoldedName[foldName(key)]]. *)
Definition lookupField (key : string) : option field :=
  if String.eqb key "id" then Some fieldId
  else if String.eqb key "message" then Some fieldMessage
  else
    let k := foldName key in
    if String.eqb k "ID" then Some fieldId
    else if String.eqb k "MESSAGE" then Some fieldMessage
    else None.

Definition setField (f : field) (v : string) (out : DoError) : DoError :=
  match f with
  | fieldId => {| Id := v; Message := Message out |}
  | fieldMessage => {| Id := Id out; Message := v |}
  end.

(** [d.saveError(err)]: only the first error is kept. *)
Definition saveError (saved : option error) (e : error) : option error :=
  match saved with
  | Some _ => saved
  | None => Some e
  end.

(** *** Decoding an object into the struct *)

Inductive dstate : Type :=
| DKey                         (* at an object key, or at the closing brace *)
| DColon (f : option field)    (* after the key *)
| DValue (f : option field)    (* at the value of the key *)
| DSkip (depth : nat)          (* inside a composite value, [d.skip()] *)
| DNext.                       (* after a value: comma or closing brace *)

(** [d.value(subv)] for a literal token and a field of kind string. *)
Definition storeLiteral (t : token) (f : field) (out : DoError) (saved : option error)
  : DoError * option error :=
  let mismatch (what : string) (off : Z) :=
    (out, saveError saved
            (UnmarshalTypeError what "string" off "DoError" (field_name f))) in
  match t with
  | TString raw _ =>
      match unquote raw with
      | Some v => (setField f v out, saved)
      | None => (out, saved)
      end
  | TNull _ => (out, saved)
  | TTrue off | TFalse off => mismatch "bool" off
  | TNumber off => mismatch "number" off
  | _ => (out, saved)
  end.

Fixpoint object (ts : list token) (st : dstate) (out : DoError) (saved : option error)
  : DoError * option error :=
  match ts with
  | [] => (out, saved)
  | t :: ts' =>
      match st with
      | DKey =>
          match t with
          | TString raw _ =>
              object ts' (DColon (from_option lookupField None (unquote raw))) out saved
          | _ => (out, saved)   (* closing brace *)
          end
      | DColon f => object ts' (DValue f) out saved
      | DValue f =>
          match t with
          | TBeginObject off =>
              object ts' (DSkip 0)
                out
                match f with
                | Some f =>
                    saveError saved
                      (UnmarshalTypeError "object" "string" off "DoError" (field_name f))
                | None => saved
                end
          | TBeginArray off =>
              object ts' (DSkip 0)
                out
                match f with
                | Some f =>
                    saveError saved
                      (UnmarshalTypeError "array" "string" off "DoError" (field_name f))
                | None => saved
                end
          | _ =>
              match f with
              | Some f =>
                  let '(out, saved) := storeLiteral t f out saved in
                  object ts' DNext out saved
              | None => object ts' DNext out saved
              end
          end
      | DSkip depth =>
          match t with
          | TBeginObject _ | TBeginArray _ => object ts' (DSkip (S depth)) out saved
          | TEndObject | TEndArray =>
              match depth with
              | O => object ts' DNext out saved
              | S depth' => object ts' (DSkip depth') out saved
              end
          | _ => object ts' st out saved
          end
      | DNext =>
          match t with
          | TComma => object ts' DKey out saved
          | _ => (out, saved)   (* closing brace *)
          end
      end
  end.

(** [d.unmarshal(&out)], where the interface value [out] holds the
    non-nil [*DoError]: [indirect] walks through the interface and the
    pointer to the struct, except for the literal [null], which stores nil
    in the interface variable and leaves the struct alone. *)
Definition unmarshal (ts : list token) (out : DoError) : DoError * option error :=
  let mismatch (what : string) (off : Z) :=
    (out, Some (UnmarshalTypeError what "digitalocean.DoError" off "" "")) in
  match ts with
  | TBeginObject _ :: ts' => object ts' DKey out None
  | TBeginArray off :: _ => mismatch "array" off
  | TString _ off :: _ => mismatch "string" off
  | TNumber off :: _ => mismatch "number" off
  | TTrue off :: _ | TFalse off :: _ => mismatch "bool" off
  | TNull _ :: _ => (out, None)
  | _ => (out, None)
  end.

(** [json.Unmarshal(data, &out)]: the struct after the call and the error. *)
Definition Unmarshal (data : string) (out : DoError) : DoError * option error :=
  match checkValid data with
  | Some e => (out, Some e)
  | None => unmarshal (tokens data) out
  end.

End json.

(* ================================================================== *)
(** * Results of fallible library calls: a value or a non-nil error *)

Definition result (A : Type) : Type := (A + error)%type.

Definition Ok {A : Type} (a : A) : result A := inl a.
Definition Err {A : Type} (e : error) : result A := inr e.

Definition bind {A B : Type} (r : result A) (k : A -> result B) : result B :=
  match r with
  | inl a => k a
  | inr e => inr e
  end.

Notation "'try' x <- r ; k" := (bind r (fun x => k))
  (at level 10, x pattern, r at level 100, k at level 200).

(* ================================================================== *)
(** * Package [net/url] *)

Module url.

Inductive encoding : Type :=
| encodePath | encodePathSegment | encodeHost | encodeZone
| encodeUserPassword | encodeQueryComponent | encodeFragment.

Definition isHostMode (mode : encoding) : bool :=
  match mode with encodeHost | encodeZone => true | _ => false end.

Definition isQueryMode (mode : encoding) : bool :=
  match mode with encodeQueryComponent => true | _ => false end.

Definition oneOf (set : string) (c : ascii) : bool := strings.ContainsByte set c.

Definition ishex (c : ascii) : bool := Byte_.isHex c.

Definition unhex (c : ascii) : Z :=
  if Byte_.isDigit c then Byte_.val c - 48
  else if Byte_.between "a" "f" c then Byte_.val c - 97 + 10
  else if Byte_.between "A" "F" c then Byte_.val c - 65 + 10
  else 0.

(** The sub-delimiters, colon, brackets, angle brackets and double quote
    that a host may hold unescaped. *)
Definition hostSubDelims : string := "!$&'()*+,;=:[]<>" +:+ String "034" EmptyString.

(** Return true if the specified character should be escaped when
    appearing in a URL string, according to RFC 3986. *)
Definition shouldEscape (c : ascii) (mode : encoding) : bool :=
  if Byte_.isAlpha c || Byte_.isDigit c then false
  else if isHostMode mode && oneOf hostSubDelims c then false
  else if oneOf "-_.~" c then false
  else if oneOf "$&+,/:;=?@" c then
    match mode with
    | encodePath => Byte_.eqb c "?"
    | encodePathSegment =>
        Byte_.eqb c "/" || Byte_.eqb c ";" || Byte_.eqb c "," || Byte_.eqb c "?"
    | encodeUserPassword =>
        Byte_.eqb c "@" || Byte_.eqb c "/" || Byte_.eqb c "?" || Byte_.eqb c ":"
    | encodeQueryComponent => true
    | encodeFragment => false
    | encodeHost | encodeZone => true
    end
  else
    match mode with
    | encodeFragment => negb (oneOf "!()*" c)
    | _ => true
    end.

(** [escape(s, mode)] *)
Fixpoint escape (s : string) (mode : encoding) : string :=
  match s with
  | EmptyString => EmptyString
  | String c s' =>
      if Byte_.eqb c " " && isQueryMode mode then String "+" (escape s' mode)
      else if shouldEscape c mode then
        String "%"
          (String (Byte_.hexdigit Byte_.upperhex (Z.shiftr (Byte_.val c) 4))
             (String (Byte_.hexdigit Byte_.upperhex (Z.land (Byte_.val c) 15))
                (escape s' mode)))
      else String c (escape s' mode)
  end.

(** QueryEscape escapes the string so it can be safely placed inside a URL
    query. *)
Definition QueryEscape (s : string) : string := escape s encodeQueryComponent.

(** validEncoded reports whether s is a valid encoded path or fragment,
    according to mode. *)
Definition validEncoded (s : string) (mode : encoding) : bool :=
  strings.forallb
    (fun c => oneOf "!$&'()*+,;=:@[]%" c || negb (shouldEscape c mode)) s.

Definition validOptionalPort (port : string) : bool :=
  match port with
  | EmptyString => true
  | String c digits => Byte_.eqb c ":" && strings.forallb Byte_.isDigit digits
  end.

(** validUserinfo reports whether s is a valid userinfo string per RFC 3986
    Section 3.2.1. *)
Definition validUserinfo (s : string) : bool :=
  strings.forallb
    (fun c => Byte_.isAlpha c || Byte_.isDigit c || oneOf "-._:~!$&'()*+,;=%@" c) s.

(** stringContainsCTLByte reports whether s contains any ASCII control
    character. *)
Definition stringContainsCTLByte (s : string) : bool :=
  negb (strings.forallb (fun b => negb ((Byte_.val b <? 32) || (Byte_.val b =? 127))) s).

(** The Userinfo type is an immutable encapsulation of username and
    password details for a URL. *)
Record Userinfo : Type := mkUserinfo {
  username : string;
  password : string;
  passwordSet : bool
}.

Record URL : Type := mkURL {
  Scheme : string;
  Opaque : string;            (* encoded opaque data *)
  User : option Userinfo;     (* username and password information *)
  Host : string;              (* host or host:port *)
  Path : string;              (* path (relative paths may omit leading slash) *)
  RawPath : string;           (* encoded path hint *)
  OmitHost : bool;            (* do not emit empty host (authority) *)
  ForceQuery : bool;          (* append a query ('?') even if RawQuery is empty *)
  RawQuery : string;          (* encoded query values, without '?' *)
  Fragment : string;          (* fragment for references, without '#' *)
  RawFragment : string        (* encoded fragment hint *)
}.

(** [new(URL)] *)
Definition zeroURL : URL :=
  mkURL EmptyString EmptyString None EmptyString EmptyString EmptyString
        false false EmptyString EmptyString EmptyString.

Definition set_Scheme (u : URL) (v : string) : URL :=
  mkURL v (Opaque u) (User u) (Host u) (Path u) (RawPath u) (OmitHost u)
        (ForceQuery u) (RawQuery u) (Fragment u) (RawFragment u).
Definition set_Opaque (u : URL) (v : string) : URL :=
  mkURL (Scheme u) v (User u) (Host u) (Path u) (RawPath u) (OmitHost u)
        (ForceQuery u) (RawQuery u) (Fragment u) (RawFragment u).
Definition set_authority (u : URL) (user : option Userinfo) (host : string) : URL :=
  mkURL (Scheme u) (Opaque u) user host (Path u) (RawPath u) (OmitHost u)
        (ForceQuery u) (RawQuery u) (Fragment u) (RawFragment u).
Definition set_Host (u : URL) (host : string) : URL :=
  set_authority u (User u) host.
Definition set_path (u : URL) (path rawpath : string) : URL :=
  mkURL (Scheme u) (Opaque u) (User u) (Host u) path rawpath (OmitHost u)
        (ForceQuery u) (RawQuery u) (Fragment u) (RawFragment u).
Definition set_OmitHost (u : URL) (v : bool) : URL :=
  mkURL (Scheme u) (Opaque u) (User u) (Host u) (Path u) (RawPath u) v
        (ForceQuery u) (RawQuery u) (Fragment u) (RawFragment u).
Definition set_ForceQuery (u : URL) (v : bool) : URL :=
  mkURL (Scheme u) (Opaque u) (User u) (Host u) (Path u) (RawPath u) (OmitHost u)
        v (RawQuery u) (Fragment u) (RawFragment u).
Definition set_RawQuery (u : URL) (v : string) : URL :=
  mkURL (Scheme u) (Opaque u) (User u) (Host u) (Path u) (RawPath u) (OmitHost u)
        (ForceQuery u) v (Fragment u) (RawFragment u).
Definition set_fragment (u : URL) (frag rawfrag : string) : URL :=
  mkURL (Scheme u) (Opaque u) (User u) (Host u) (Path u) (RawPath u) (OmitHost u)
        (ForceQuery u) (RawQuery u) frag rawfrag.

(** Values maps a string key to a list of values. *)
Abbreviation Values := (gmap string (list string)).

(** Add adds the value to key. It appends to any existing values
    associated with key. *)
Definition Values_Add (v : Values) (key value : string) : Values :=
  <[key := default [] (v !! key) ++ [value]]> v.

(** The inner loop of [Encode]: the values of one key. *)
Definition Encode_key (keyEscaped : string) (vs : list string) (buf : string) : string :=
  fold_left
    (fun buf v =>
       (if Nat.ltb 0 (String.length buf) then buf +:+ "&" else buf)
         +:+ keyEscaped +:+ "=" +:+ QueryEscape v)
    vs buf.

(** Encode encodes the values into URL-encoded form ("bar=baz&foo=quux")
    sorted by key. *)
Definition Values_Encode (v : Values) : string :=
  let keys := merge_sort String.le (fst <$> map_to_list v) in
  fold_left
    (fun buf k => Encode_key (QueryEscape k) (default [] (v !! k)) buf)
    keys EmptyString.

Section WithQuote.

(** [strconv.Quote], which the error texts of this package use ([%q]).
    It needs the Unicode tables, so it is a parameter of the model. *)
Variable strconv_Quote : string -> string.

Definition EscapeError (s : string) : error :=
  foreignError "url.EscapeError" ("invalid URL escape " +:+ strconv_Quote s).

Definition InvalidHostError (s : string) : error :=
  foreignError "url.InvalidHostError"
    ("invalid character " +:+ strconv_Quote s +:+ " in host name").

(** [&url.Error{Op, URL, Err}] *)
Definition url_Error (Op URL_ : string) (e : error) : error :=
  foreignError "*url.Error" (Op +:+ " " +:+ strconv_Quote URL_ +:+ ": " +:+ Error e).

(** unescape unescapes a string; the mode specifies which section of the
    URL string is being unescaped. *)
Fixpoint unescape (s : string) (mode : encoding) : result string :=
  match s with
  | EmptyString => Ok EmptyString
  | String c s1 =>
      if Byte_.eqb c "%" then
        match s1 with
        | String h1 (String h2 s3) =>
            let esc := String c (String h1 (String h2 EmptyString)) in
            let v := unhex h1 * 16 + unhex h2 in
            if negb (ishex h1 && ishex h2) then Err (EscapeError esc)
            else if match mode with encodeHost => true | _ => false end
                    && (unhex h1 <? 8) && negb (String.eqb esc "%25")
            then Err (EscapeError esc)
            else if match mode with encodeZone => true | _ => false end
                    && negb (String.eqb esc "%25") && negb (v =? 32)
                    && shouldEscape (Byte_.of_Z v) encodeHost
            then Err (EscapeError esc)
            else try t <- unescape s3 mode; Ok (String (Byte_.of_Z v) t)
        | _ => Err (EscapeError s)
        end
      else if Byte_.eqb c "+" then
        try t <- unescape s1 mode;
        Ok (String (if isQueryMode mode then " "%char else "+"%char) t)
      else if isHostMode mode && (Byte_.val c <? 128) && shouldEscape c encodeHost
      then Err (InvalidHostError (strings.singleton c))
      else try t <- unescape s1 mode; Ok (String c t)
  end.

(** QueryUnescape does the inverse transformation of QueryEscape. *)
Definition QueryUnescape (s : string) : result string :=
  unescape s encodeQueryComponent.

(** [parseQuery(m, query)]: the map after the call and the first error. *)
Fixpoint parseQuery (fuel : nat) (m : Values) (query : string) (err : option error)
  : Values * option error :=
  match fuel with
  | O => (m, err)
  | S fuel' =>
      if String.eqb query EmptyString then (m, err)
      else
        let '(key, query, _) := strings.Cut query "&" in
        if strings.ContainsByte key ";" then
          parseQuery fuel' m query
            (Some (errorString "invalid semicolon separator in query"))
        else if String.eqb key EmptyString then parseQuery fuel' m query err
        else
          let '(key, value, _) := strings.Cut key "=" in
          match QueryUnescape key with
          | inr err1 =>
              parseQuery fuel' m query (match err with None => Some err1 | _ => err end)
          | inl key =>
              match QueryUnescape value with
              | inr err1 =>
                  parseQuery fuel' m query
                    (match err with None => Some err1 | _ => err end)
              | inl value =>
                  parseQuery fuel' (<[key := default [] (m !! key) ++ [value]]> m)
                    query err
              end
          end
  end.

(** ParseQuery parses the URL-encoded query string and returns a map
    listing the values specified for each key. *)
Definition ParseQuery (query : string) : Values * option error :=
  parseQuery (String.length query) ∅ query None.

(** [getScheme(rawURL)]: (scheme, path), or an error. *)
Fixpoint getScheme_loop (rawURL acc rest : string) (first : bool)
  : result (string * string) :=
  match rest with
  | EmptyString => Ok (EmptyString, rawURL)
  | String c rest' =>
      if Byte_.isAlpha c then
        getScheme_loop rawURL (String c acc) rest' false
      else if Byte_.isDigit c || Byte_.eqb c "+" || Byte_.eqb c "-" || Byte_.eqb c "." then
        if first then Ok (EmptyString, rawURL)
        else getScheme_loop rawURL (String c acc) rest' false
      else if Byte_.eqb c ":" then
        if first then Err (errorString "missing protocol scheme")
        else Ok (strings.rev_append acc EmptyString, rest')
      else Ok (EmptyString, rawURL)
  end.

Definition getScheme (rawURL : string) : result (string * string) :=
  getScheme_loop rawURL EmptyString rawURL true.

(** parseHost parses host as an authority without user information. That
    is, as host[:port]. *)
Definition parseHost (host : string) : result string :=
  if strings.HasPrefix host "[" then
    match strings.CutLast host "]" with
    | None => Err (errorString "missing ']' in host")
    | Some (before, colonPort) =>
        (* [before] is host[:i], [colonPort] is host[i+1:] *)
        if negb (validOptionalPort colonPort) then
          Err (errorString ("invalid port " +:+ strconv_Quote colonPort +:+ " after host"))
        else
          match strings.CutAt before "%25" with
          | Some (host1, zone) =>
              try host1 <- unescape host1 encodeHost;
              try host2 <- unescape zone encodeZone;
              try host3 <- unescape (String "]" colonPort) encodeHost;
              Ok (host1 +:+ host2 +:+ host3)
          | None => unescape host encodeHost
          end
    end
  else
    match strings.CutLast host ":" with
    | Some (_, port) =>
        if negb (validOptionalPort (String ":" port)) then
          Err (errorString
                 ("invalid port " +:+ strconv_Quote (String ":" port) +:+ " after host"))
        else unescape host encodeHost
    | None => unescape host encodeHost
    end.

Definition parseAuthority (authority : string) : result (option Userinfo * string) :=
  match strings.CutLast authority "@" with
  | None =>
      try host <- parseHost authority;
      Ok (None, host)
  | Some (userinfo, hostpart) =>
      try host <- parseHost hostpart;
      if negb (validUserinfo userinfo) then
        Err (errorString "net/url: invalid userinfo")
      else if negb (strings.ContainsByte userinfo ":") then
        try userinfo <- unescape userinfo encodeUserPassword;
        Ok (Some (mkUserinfo userinfo EmptyString false), host)
      else
        let '(username, password, _) := strings.Cut userinfo ":" in
        try username <- unescape username encodeUserPassword;
        try password <- unescape password encodeUserPassword;
        Ok (Some (mkUserinfo username password true), host)
  end.

(** setPath sets the Path and RawPath fields of the URL based on the
    provided escaped path p. *)
Definition setPath (u : URL) (p : string) : result URL :=
  try path <- unescape p encodePath;
  if String.eqb p (escape path encodePath) then Ok (set_path u path EmptyString)
  else Ok (set_path u path p).

(** setFragment is like setPath but for Fragment/RawFragment. *)
Definition setFragment (u : URL) (f : string) : result URL :=
  try frag <- unescape f encodeFragment;
  if String.eqb f (escape frag encodeFragment) then Ok (set_fragment u frag EmptyString)
  else Ok (set_fragment u frag f).

(** parse parses a URL from a string in one of two contexts. If viaRequest
    is true, the URL is assumed to have arrived via an HTTP request.  (The
    string has no [#fragment] suffix.) *)
Definition parse (rawURL : string) (viaRequest : bool) : result URL :=
  if stringContainsCTLByte rawURL then
    Err (errorString "net/url: invalid control character in URL")
  else if String.eqb rawURL EmptyString && viaRequest then
    Err (errorString "empty url")
  else if String.eqb rawURL "*" then Ok (set_path zeroURL "*" EmptyString)
  else
    try sr <- getScheme rawURL;
    let '(scheme, rest) := sr in
    let url := set_Scheme zeroURL (strings.ToLower scheme) in
    let '(url, rest) :=
      if strings.HasSuffixByte rest "?" && (strings.CountByte rest "?" =? 1) then
        (set_ForceQuery url true, strings.dropLast rest)
      else
        let '(rest, query, _) := strings.Cut rest "?" in
        (set_RawQuery url query, rest) in
    if negb (strings.HasPrefix rest "/") && negb (String.eqb (Scheme url) EmptyString) then
      (* We consider rootless paths per RFC 3986 as opaque. *)
      Ok (set_Opaque url rest)
    else if negb (strings.HasPrefix rest "/") && viaRequest then
      Err (errorString "invalid URI for request")
    else if negb (strings.HasPrefix rest "/")
            && strings.ContainsByte (fst (fst (strings.Cut rest "/"))) ":" then
      (* First path segment has colon. Not allowed in relative URL. *)
      Err (errorString "first path segment in URL cannot contain colon")
    else
      try ur <-
        (if (negb (String.eqb (Scheme url) EmptyString)
             || negb viaRequest && negb (strings.HasPrefix rest "///"))
            && strings.HasPrefix rest "//"
         then
           let authority := strings.TrimPrefixLen 2 rest in
           let '(authority, rest) :=
             match strings.CutAt authority "/" with
             | Some (a, r) => (a, r)
             | None => (authority, EmptyString)
             end in
           try uh <- parseAuthority authority;
           Ok (set_authority url (fst uh) (snd uh), rest)
         else if negb (String.eqb (Scheme url) EmptyString) && strings.HasPrefix rest "/"
         then Ok (set_OmitHost url true, rest)
         else Ok (url, rest));
      setPath (fst ur) (snd ur).

(** Parse parses a raw url into a URL structure. *)
Definition Parse (rawURL : string) : result URL :=
  let '(u, frag, _) := strings.Cut rawURL "#" in
  match parse u false with
  | inr e => Err (url_Error "parse" u e)
  | inl url =>
      if String.eqb frag EmptyString then Ok url
      else match setFragment url frag with
           | inr e => Err (url_Error "parse" rawURL e)
           | inl url => Ok url
           end
  end.

End WithQuote.

(** String returns the encoded userinfo information in the standard form
    of "username[:password]". *)
Definition Userinfo_String (u : option Userinfo) : string :=
  match u with
  | None => EmptyString
  | Some u =>
      escape (username u) encodeUserPassword
        +:+ (if passwordSet u then ":" +:+ escape (password u) encodeUserPassword
             else EmptyString)
  end.

(** Whether [unescape(s, mode)] succeeds with [want]; the error text is not
    needed, so any quoting function serves. *)
Definition unescapesTo (s : string) (mode : encoding) (want : string) : bool :=
  match unescape (fun x => x) s mode with
  | inl p => String.eqb p want
  | inr _ => false
  end.

(** EscapedPath returns the escaped form of u.Path. *)
Definition EscapedPath (u : URL) : string :=
  if negb (String.eqb (RawPath u) EmptyString)
     && validEncoded (RawPath u) encodePath
     && unescapesTo (RawPath u) encodePath (Path u)
  then RawPath u
  else if String.eqb (Path u) "*" then "*"   (* don't escape (Issue 11202) *)
  else escape (Path u) encodePath.

(** EscapedFragment returns the escaped form of u.Fragment. *)
Definition EscapedFragment (u : URL) : string :=
  if negb (String.eqb (RawFragment u) EmptyString)
     && validEncoded (RawFragment u) encodeFragment
     && unescapesTo (RawFragment u) encodeFragment (Fragment u)
  then RawFragment u
  else escape (Fragment u) encodeFragment.

Definition nonEmpty (s : string) : bool := negb (String.eqb s EmptyString).

(** The part of [String] before the query: scheme, opaque data or
    authority and path. *)
Definition String_hier (u : URL) : string :=
  let buf := if nonEmpty (Scheme u) then Scheme u +:+ ":" else EmptyString in
  if nonEmpty (Opaque u) then buf +:+ Opaque u
  else
    let buf :=
      if nonEmpty (Scheme u) || nonEmpty (Host u) || bool_decide (User u <> None) then
        if OmitHost u && negb (nonEmpty (Host u)) && bool_decide (User u = None) then
          buf   (* omit empty host *)
        else
          let buf :=
            if nonEmpty (Host u) || nonEmpty (Path u) || bool_decide (User u <> None)
            then buf +:+ "//" else buf in
          let buf :=
            match User u with
            | Some ui => buf +:+ Userinfo_String (Some ui) +:+ "@"
            | None => buf
            end in
          if nonEmpty (Host u) then buf +:+ escape (Host u) encodeHost else buf
      else buf in
    let path := EscapedPath u in
    let buf :=
      if nonEmpty path && negb (strings.HasPrefix path "/") && nonEmpty (Host u)
      then buf +:+ "/" else buf in
    let buf :=
      if negb (nonEmpty buf)
         && strings.ContainsByte (fst (fst (strings.Cut path "/"))) ":"
      then buf +:+ "./" else buf in
    buf +:+ path.

(** The method [String] of [URL]: String reassembles the URL into a valid
    URL string. *)
Definition URL_String (u : URL) : string :=
  let buf := String_hier u in
  let buf :=
    if ForceQuery u || nonEmpty (RawQuery u) then buf +:+ "?" +:+ RawQuery u else buf in
  if nonEmpty (Fragment u) then buf +:+ "#" +:+ EscapedFragment u else buf.

End url.

(* ================================================================== *)
(** * Package [io]: a stream that is read and closed

    An [io.ReadCloser] is a stateful object.  Its state here is what is
    still to come out of it (the unread bytes, and the error that ends the
    stream instead of [io.EOF], if any) and the operations that have been
    performed on it so far. *)

Module io.

Inductive event : Type := EvReadAll | EvClose.

Record ReadCloser : Type := mkReadCloser {
  unread : string;
  failure : option error;
  events : list event
}.

(** [ioutil.ReadAll(r)]: ReadAll reads from r until an error or EOF and
    returns the data it read.  A successful call returns err == nil. *)
Definition ReadAll (r : ReadCloser) : string * option error * ReadCloser :=
  (unread r, failure r,
   {| unread := EmptyString; failure := failure r;
      events := events r ++ [EvReadAll] |}).

(** [r.Close()] *)
Definition Close (r : ReadCloser) : ReadCloser :=
  {| unread := unread r; failure := failure r; events := events r ++ [EvClose] |}.

#[global] Instance event_eq_dec : EqDecision event.
Proof. solve_decision. Defined.

(** How many times the operation [e] has been performed on [r]. *)
Definition count (e : event) (r : ReadCloser) : nat :=
  length (filter (fun x => x = e) (events r)).

End io.

(* ================================================================== *)
(** * Package [net/http] *)

Module http.

(** A Header represents the key-value pairs in an HTTP header. *)
Abbreviation Header := (gmap string (list string)).

(** The token characters of RFC 7230. *)
Definition isTokenByte (c : ascii) : bool :=
  Byte_.isAlpha c || Byte_.isDigit c || strings.ContainsByte "!#$%&'*+-.^_`|~" c.

Fixpoint canonicalize (s : string) (upper : bool) : string :=
  match s with
  | EmptyString => EmptyString
  | String c s' =>
      let c :=
        if upper && Byte_.isLower c then strings.toUpperByte c
        else if negb upper && Byte_.isUpper c then strings.toLowerByte c
        else c in
      String c (canonicalize s' (Byte_.eqb c "-"))
  end.

(** [textproto.CanonicalMIMEHeaderKey]: the first letter and any letter
    following a hyphen in upper case, the rest in lower case; a key with a
    byte that is not a token byte is returned without modifications. *)
Definition CanonicalMIMEHeaderKey (s : string) : string :=
  if strings.forallb isTokenByte s then canonicalize s true else s.

(** Add adds the key, value pair to the header. It appends to any existing
    values associated with key. *)
Definition Header_Add (h : Header) (key value : string) : Header :=
  let key := CanonicalMIMEHeaderKey key in
  <[key := default [] (h !! key) ++ [value]]> h.

(** Values returns all values associated with the given key. *)
Definition Header_Values (h : Header) (key : string) : list string :=
  default [] (h !! CanonicalMIMEHeaderKey key).

Module Request.
Record t : Type := mk {
  Method : string;
  URL : url.URL;
  Proto : string;
  ProtoMajor : Z;
  ProtoMinor : Z;
  Header : http.Header;
  Body : option io.ReadCloser;
  Host : string
}.
End Request.

Module Response.
Record t : Type := mk {
  StatusCode : Z;                  (* e.g. 200 *)
  Header : http.Header;
  Body : io.ReadCloser;
    (* The http Client and Transport guarantee that Body is always
       non-nil, even on responses without a body.  A response made by
       hand with a nil Body, on which reading the body panics, is
       outside this model. *)
  Request : option Request.t
    (* Request is the request that was sent to obtain this Response. *)
}.
Definition set_Body (r : t) (b : io.ReadCloser) : t :=
  mk (StatusCode r) (Header r) b (Request r).
End Response.

Definition validMethod (method : string) : bool :=
  Nat.ltb 0 (String.length method) && strings.forallb isTokenByte method.

(** Given a string of the form "host", "host:port", or "[ipv6::address]:port",
    return true if the string includes a port. *)
Definition hasPort (s : string) : bool :=
  match strings.CutLast s ":" with
  | None => false
  | Some (_, after) => negb (strings.ContainsByte after "]")
  end.

(** removeEmptyPort strips the empty port in ":port" to "" as mandated by
    RFC 3986 Section 6.2.3. *)
Definition removeEmptyPort (host : string) : string :=
  if hasPort host && strings.HasSuffixByte host ":" then strings.dropLast host
  else host.

Section WithQuote.

Variable strconv_Quote : string -> string.

(** [http.NewRequest(method, url, nil)] *)
Definition NewRequest (method url_ : string) : result Request.t :=
  let method := if String.eqb method EmptyString then "GET" else method in
  if negb (validMethod method) then
    Err (errorString ("net/http: invalid method " +:+ strconv_Quote method))
  else
    try u <- url.Parse strconv_Quote url_;
    (* The host's colon:port should be normalized. See Issue 14836. *)
    let u := url.set_Host u (removeEmptyPort (url.Host u)) in
    Ok {| Request.Method := method;
          Request.URL := u;
          Request.Proto := "HTTP/1.1";
          Request.ProtoMajor := 1;
          Request.ProtoMinor := 1;
          Request.Header := ∅;
          Request.Body := None;
          Request.Host := url.Host u |}.

End WithQuote.

Definition Request_Header_Add (req : Request.t) (key value : string) : Request.t :=
  {| Request.Method := Request.Method req;
     Request.URL := Request.URL req;
     Request.Proto := Request.Proto req;
     Request.ProtoMajor := Request.ProtoMajor req;
     Request.ProtoMinor := Request.ProtoMinor req;
     Request.Header := Header_Add (Request.Header req) key value;
     Request.Body := Request.Body req;
     Request.Host := Request.Host req |}.

(** A Client is an HTTP client.  The package under study stores one and
    never uses it. *)
Record Client : Type := mkClient { Timeout : Z }.

End http.

(* ================================================================== *)
(** * Package [digitalocean]: api.go *)

Definition DIGITALOCEAN_API_URL : string := "https://api.digitalocean.com/v2".

(** Client provides a client to the DigitalOcean API *)
Record Client : Type := mkClient {
  Token : string;               (* Access Token *)
  URL : string;                 (* URL to the DO API to use *)
  Http : option http.Client     (* HttpClient is the client to use. *)
}.

(** NewClient returns a new digitalocean client, requires an
    authorization token. *)
Definition NewClient (token : string) : option Client * option error :=
  let client := {| Token := token; URL := DIGITALOCEAN_API_URL; Http := None |} in
  (Some client, None).

(** [for k, v := range params { p.Add(k, v) }], the pairs of [params]
    taken in the order [l]. *)
Definition range_Add (l : list (string * string)) (p : url.Values) : url.Values :=
  fold_left (fun p kv => url.Values_Add p (fst kv) (snd kv)) l p.

Section WithQuote.

Variable strconv_Quote : string -> string.

(** Creates a new request with the params *)
Definition NewRequest (c : Client) (params : gmap string string)
  (method : string) (endpoint : string) : option http.Request.t * option error :=
  let p : url.Values := ∅ in
  match url.Parse strconv_Quote (URL c) with
  | inr err => (None, Some (Errorf_s "Error parsing base URL: " err))
  | inl u =>
      (* Build up our request parameters *)
      let p := range_Add (map_to_list params) p in
      (* Add the params to our URL *)
      let u := url.set_RawQuery u (url.Values_Encode p) in
      (* Build the request *)
      match http.NewRequest strconv_Quote method (url.URL_String u) with
      | inr err => (None, Some (Errorf_s "Error creating request: " err))
      | inl req =>
          (* Add the authorization header *)
          let req := http.Request_Header_Add req "Authorization" ("Bearer " +:+ Token c) in
          (Some req, None)
      end
  end.

End WithQuote.

(** decodeBody is used to JSON decode a body.  [out] is the [*DoError]
    that the caller passes; the result is the response after the call, the
    struct after the call, and the error. *)
Definition decodeBody (resp : http.Response.t) (out : DoError)
  : http.Response.t * DoError * option error :=
  let '(body, err, r) := io.ReadAll (http.Response.Body resp) in
  let resp := http.Response.set_Body resp (io.Close r) in
  match err with
  | Some err => (resp, out, Some err)
  | None =>
      match json.Unmarshal body out with
      | (out, Some err) => (resp, out, Some err)
      | (out, None) => (resp, out, None)
      end
  end.

(** parseErr is used to take an error json resp and return a single
    string for use in error messages *)
Definition parseErr (resp : http.Response.t) : http.Response.t * option error :=
  let errBody := {| Id := EmptyString; Message := EmptyString |} in
  let '(resp, errBody, err) := decodeBody resp errBody in
  match err with
  | Some err =>
      (* if there was an error decoding the body, just return that *)
      (resp, Some (Errorf_s "Error parsing error body for non-200 request: " err))
  | None =>
      (resp, Some (errorString ("API Error: " +:+ Id errBody +:+ ": " +:+ Message errBody)))
  end.

(** The result of a call: the values returned, or a run-time panic. *)
Inductive outcome (A : Type) : Type :=
| Returns (a : A)
| Panics (msg : string).
Arguments Returns {A} a.
Arguments Panics {A} msg.

(** checkResp wraps http.Client.Do() and verifies that the request was
    successful. A non-200 request returns an error formatted to included
    any validation problems or otherwise.  [resp] is a pointer: the
    response returned is the same object, in the state the call leaves it
    in. *)
Definition checkResp (resp : option http.Response.t) (err : option error)
  : outcome (option http.Response.t * option error) :=
  match err with
  | Some err =>
      (* If the err is already there, there was an error higher up the
         chain, so just return that *)
      Returns (resp, Some err)
  | None =>
      match resp with
      | None => Panics "runtime error: invalid memory address or nil pointer dereference"
      | Some r =>
          (* Verify that the request was sucessful *)
          if negb (http.Response.StatusCode r =? 200)
             || negb (http.Response.StatusCode r =? 204)
          then
            (* Parse the err and retun it *)
            let '(r, e) := parseErr r in
            Returns (Some r, e)
          else
            (* The request was succesful, so return a nil error *)
            Returns (resp, None)
      end
  end.

(* ================================================================== *)
(** * Vocabulary of the statements *)

(** [strings.Contains(s, substr)] *)
Definition Contains (s substr : string) : bool :=
  match strings.CutAt s substr with
  | Some _ => true
  | None => false
  end.

(** A JSON text written with single quotes in place of double quotes. *)
Fixpoint dquote (s : string) : string :=
  match s with
  | EmptyString => EmptyString
  | String c s' => String (if Byte_.eqb c "'" then "034"%char else c) (dquote s')
  end.

(** What [strconv.Quote] returns for printable ASCII text that holds no
    double quote and no backslash: the text between double quotes.  It
    instantiates the quoting parameter in the examples. *)
Definition quote_plain (s : string) : string :=
  String "034" (s +:+ String "034" EmptyString).

(** The body that [decodeBody] leaves behind: read to the end, then
    closed. *)
Definition drained (b : io.ReadCloser) : io.ReadCloser :=
  io.Close (snd (io.ReadAll b)).

(** The response object after its body has been read and closed. *)
Definition consumed (r : http.Response.t) : http.Response.t :=
  http.Response.set_Body r (drained (http.Response.Body r)).

(** The error component of a call to [checkResp] that returned. *)
Definition returned_error {A : Type} (o : outcome (A * option error)) : option error :=
  match o with
  | Returns (_, e) => e
  | Panics _ => None
  end.

(** A response whose body delivers [body] and then [io.EOF], untouched. *)
Definition fresh_response (code : Z) (body : string) : http.Response.t :=
  http.Response.mk code ∅ (io.mkReadCloser body None []) None.

Definition zeroDoError : DoError := {| Id := EmptyString; Message := EmptyString |}.

(** The outcome of decoding a response body into a zero [DoError]: the
    read error if reading failed, else what [json.Unmarshal] says. *)
Definition decode_error (b : io.ReadCloser) : option error :=
  match io.failure b with
  | Some e => Some e
  | None => snd (json.Unmarshal (io.unread b) zeroDoError)
  end.

Definition body_not_found : string :=
  dquote "{'id':'not_found','message':'The resource was not found'}".

(** An error body in which the API repeats the token it was given. *)
Definition body_echo : string :=
  dquote "{'id':'unauthorized','message':'Unable to authenticate token s3cr3t'}".

(** A client as [NewClient] makes it, and parameters of a request. *)
Definition sample_client : Client :=
  {| Token := "tok"; URL := DIGITALOCEAN_API_URL; Http := None |}.

Definition sample_params : gmap string string :=
  <["name" := "my droplet"]> (<["size" := "512mb"]> ∅).

(** One key/value pair of a query, percent-encoded. *)
Definition encoded_pair (kv : string * string) : string :=
  url.QueryEscape (fst kv) +:+ "=" +:+ url.QueryEscape (snd kv).

(** The [url.Values] that hold exactly the pairs of [P], one value per
    key. *)
Definition single_valued (P : gmap string string) : url.Values :=
  (fun v => [v]) <$> P.

(** The bytes that [escape] writes besides the unescaped bytes of its
    argument: the percent sign, the plus sign, the upper-case hex digits. *)
Definition escapeBytes : string := "%+" +:+ Byte_.upperhex.

(** One step of writing a query: the separator, unless the buffer is
    empty, and the next encoded pair. *)
Definition write_pair (buf x : string) : string :=
  (if Nat.ltb 0 (String.length buf) then buf +:+ "&" else buf) +:+ x.

(** The pair of the key [k] in [P]. *)
Definition pair_of (P : gmap string string) (k : string) : string * string :=
  (k, default EmptyString (P !! k)).

(** A text without query marker and without fragment marker. *)
Definition plain (s : string) : Prop :=
  strings.ContainsByte s "?" = false /\ strings.ContainsByte s "#" = false.

(** The bytes of a URL scheme. *)
Definition schemeByte (c : ascii) : bool :=
  Byte_.isAlpha c || Byte_.isDigit c || strings.ContainsByte "+-." c.

(** How [parse] splits what follows the scheme into path and query. *)
Definition forcesQuery (rest : string) : bool :=
  strings.HasSuffixByte rest "?" && (strings.CountByte rest "?" =? 1).

Definition query_of (rest : string) : string :=
  if forcesQuery rest then EmptyString else snd (fst (strings.Cut rest "?")).

Definition path_of (rest : string) : string :=
  if forcesQuery rest then strings.dropLast rest else fst (fst (strings.Cut rest "?")).

(** The body of an API error with the given id and message, written
    without escapes. *)
Definition error_body (id msg : string) : string :=
  dquote "{'id':'" +:+ (id +:+ (dquote "','message':'" +:+ (msg +:+ dquote "'}"))).

(** The bytes that a JSON string literal holds as they are: ASCII from the
    space on, except the double quote and the backslash. *)
Definition jsonPlainByte (c : ascii) : bool :=
  (32 <=? Byte_.val c) && (Byte_.val c <? 128)
  && negb (Byte_.eqb c "034") && negb (Byte_.eqb c "\").

(** Letters, digits and the marks that an encoded query is made of. *)
Definition querySafeByte (c : ascii) : bool :=
  Byte_.isAlpha c || Byte_.isDigit c || strings.ContainsByte "-_.~%+=&" c.

(** Everything of a request but its header. *)
Definition request_sans_header (r : http.Request.t)
  : string * url.URL * string * Z * Z * option io.ReadCloser * string :=
  (http.Request.Method r, http.Request.URL r, http.Request.Proto r,
   http.Request.ProtoMajor r, http.Request.ProtoMinor r,
   http.Request.Body r, http.Request.Host r).

(** The text before the fragment marker, which is what [Parse] checks
    for control characters. *)
Definition before_fragment (rawURL : string) : string :=
  fst (fst (strings.Cut rawURL "#")).

(** A client whose base URL ends with a line feed, as when it was read
    from a file, and one whose base URL has a query of its own. *)
Definition client_with_newline : Client :=
  {| Token := "tok";
     URL := DIGITALOCEAN_API_URL +:+ String "010" EmptyString;
     Http := None |}.

Definition client_with_query : Client :=
  {| Token := "tok"; URL := DIGITALOCEAN_API_URL +:+ "?page=2&per_page=1"; Http := None |}.

(** The bytes at which a JSON text may start: white space and the first
    bytes of a value. *)
Definition jsonValueStart (c : ascii) : bool :=
  json.isSpace c || Byte_.eqb c "{" || Byte_.eqb c "[" || Byte_.eqb c "034"
  || Byte_.eqb c "-" || Byte_.eqb c "0" || Byte_.eqb c "t" || Byte_.eqb c "f"
  || Byte_.eqb c "n" || Byte_.between "1" "9" c.

(** A successful answer of the API to a request for a droplet. *)
Definition body_droplet : string :=
  dquote "{'droplet':{'id':3164494,'name':'example.com'}}".

(* ================================================================== *)
(** * Properties of the response validator *)

Section Validator.

Implicit Types (r : http.Response.t) (e : error).

(** The status test of [checkResp] holds for every status code. *)
Lemma status_test_always_true (code : Z) :
  negb (code =? 200) || negb (code =? 204) = true.
Proof.
  destruct (Z.eqb_spec code 200) as [->|]; [reflexivity|].
  reflexivity.
Qed.

Lemma decodeBody_response r out :
  fst (fst (decodeBody r out)) = consumed r.
Proof.
  unfold decodeBody, consumed, drained. simpl.
  destruct (io.failure (http.Response.Body r)); [reflexivity|].
  destruct (json.Unmarshal _ _) as [o [e|]]; reflexivity.
Qed.

Lemma decodeBody_error r :
  snd (decodeBody r zeroDoError) = decode_error (http.Response.Body r).
Proof.
  unfold decodeBody, decode_error. simpl.
  destruct (io.failure (http.Response.Body r)); [reflexivity|].
  destruct (json.Unmarshal _ _) as [o [e|]]; reflexivity.
Qed.

Lemma decodeBody_struct r :
  io.failure (http.Response.Body r) = None ->
  snd (fst (decodeBody r zeroDoError))
  = fst (json.Unmarshal (io.unread (http.Response.Body r)) zeroDoError).
Proof.
  intros Hf. unfold decodeBody. simpl. rewrite Hf.
  destruct (json.Unmarshal _ _) as [o [e|]]; reflexivity.
Qed.

(** [parseErr] in closed form. *)
Lemma parseErr_spec r :
  parseErr r =
  (consumed r,
   Some match decode_error (http.Response.Body r) with
        | Some e => Errorf_s "Error parsing error body for non-200 request: " e
        | None =>
            let d := fst (json.Unmarshal (io.unread (http.Response.Body r)) zeroDoError) in
            errorString ("API Error: " +:+ Id d +:+ ": " +:+ Message d)
        end).
Proof.
  unfold parseErr. fold zeroDoError.
  pose proof (decodeBody_response r zeroDoError) as H1.
  pose proof (decodeBody_error r) as H2.
  destruct (decodeBody r zeroDoError) as [[r' d] oe] eqn:Hd. simpl in H1, H2.
  subst r' oe.
  destruct (decode_error _) as [e|] eqn:He; [reflexivity|].
  assert (Hf : io.failure (http.Response.Body r) = None).
  { unfold decode_error in He. destruct (io.failure _); [discriminate|reflexivity]. }
  pose proof (decodeBody_struct r Hf) as H3. rewrite Hd in H3. simpl in H3.
  subst d. reflexivity.
Qed.

(** [checkResp] on a response and a nil error, in closed form. *)
Lemma checkResp_nil_err r :
  checkResp (Some r) None = Returns (Some (fst (parseErr r)), snd (parseErr r)).
Proof.
  unfold checkResp. rewrite status_test_always_true.
  destruct (parseErr r); reflexivity.
Qed.

Lemma events_consumed r :
  io.events (http.Response.Body (consumed r))
  = io.events (http.Response.Body r) ++ [io.EvReadAll; io.EvClose].
Proof. simpl. rewrite <- app_assoc. reflexivity. Qed.

Lemma count_close_consumed r :
  io.count io.EvClose (http.Response.Body (consumed r))
  = S (io.count io.EvClose (http.Response.Body r)).
Proof.
  unfold io.count. rewrite events_consumed, filter_app, length_app.
  simpl. lia.
Qed.

End Validator.

(* ================================================================== *)
(** * Which bodies decode *)

(** Input that [checkValid] rejects is not decoded: [Unmarshal] returns
    the syntax error and leaves the struct alone. *)
Lemma Unmarshal_invalid (data : string) (out : DoError) (e : error) :
  json.checkValid data = Some e -> json.Unmarshal data out = (out, Some e).
Proof. unfold json.Unmarshal. now intros ->. Qed.

Lemma decode_error_invalid (b : io.ReadCloser) (e : error) :
  io.failure b = None -> json.checkValid (io.unread b) = Some e ->
  decode_error b = Some e.
Proof.
  intros Hf Hv. unfold decode_error. rewrite Hf.
  now rewrite (Unmarshal_invalid _ _ _ Hv).
Qed.

(** A failing reader is reported whatever was read. *)
Lemma decode_error_read_failure (b : io.ReadCloser) (e : error) :
  io.failure b = Some e -> decode_error b = Some e.
Proof. unfold decode_error. now intros ->. Qed.

(** Text that is not JSON, truncated JSON, and JSON values of the wrong
    kind fail to decode; [null], an empty object and an object with other
    members decode, and leave the struct at its zero value. *)
Example decode_samples :
  snd (json.Unmarshal "<html>" zeroDoError)
  = Some (SyntaxError "invalid character '<' looking for beginning of value" 1)
  /\ snd (json.Unmarshal (dquote "{'id':'x'") zeroDoError)
     = Some (SyntaxError "unexpected end of JSON input" 9)
  /\ snd (json.Unmarshal "[1,2]" zeroDoError)
     = Some (UnmarshalTypeError "array" "digitalocean.DoError" 1 EmptyString EmptyString)
  /\ snd (json.Unmarshal (dquote "{'id':5}") zeroDoError)
     = Some (UnmarshalTypeError "number" "string" 7 "DoError" "id")
  /\ json.Unmarshal "null" zeroDoError = (zeroDoError, None)
  /\ json.Unmarshal "{}" zeroDoError = (zeroDoError, None)
  /\ json.Unmarshal (dquote "{'error':'oops'}") zeroDoError = (zeroDoError, None)
  /\ json.Unmarshal (dquote "{'ID':'a','Message':'b','id':null}") zeroDoError
     = ({| Id := "a"; Message := "b" |}, None).
Proof. repeat split; vm_compute; reflexivity. Qed.

(* ================================================================== *)
(** * The validator: the claims *)

(** C7.  When the transport error is not nil, [checkResp] returns that
    very error, not wrapped, together with the response it was given
    (which may be nil); the response, and so its body, is left as it was:
    nothing is read and nothing is closed. *)
Theorem checkResp_transport_error_unchanged
  (resp : option http.Response.t) (e : error) :
  checkResp resp (Some e) = Returns (resp, Some e).
Proof. reflexivity. Qed.

(** C9.  For every response passed with a nil transport error, whatever
    its status code, [checkResp] reads the body to the end and closes it
    (the two operations are appended, in this order, to what was done on
    the body before, and nothing else of the response changes), and the
    error it returns is not nil. *)
Theorem checkResp_nil_error_reads_closes_and_fails (r : http.Response.t) :
  exists e : error,
    checkResp (Some r) None = Returns (Some (consumed r), Some e)
    /\ io.events (http.Response.Body (consumed r))
       = io.events (http.Response.Body r) ++ [io.EvReadAll; io.EvClose]
    /\ io.unread (http.Response.Body (consumed r)) = EmptyString
    /\ http.Response.StatusCode (consumed r) = http.Response.StatusCode r.
Proof.
  rewrite checkResp_nil_err, parseErr_spec. cbn [fst snd].
  eexists. split; [reflexivity|].
  split; [apply events_consumed|]. split; reflexivity.
Qed.

(** C1 (the code departs from it).  [checkResp] at status 200 with the
    body of a successful answer, and at status 204 with an empty body: in
    both cases the body is read and closed and an error is returned. *)
Theorem checkResp_fails_on_200_and_204 :
  checkResp (Some (fresh_response 200 body_droplet)) None
  = Returns (Some (http.Response.mk 200 ∅
                     (io.mkReadCloser EmptyString None [io.EvReadAll; io.EvClose]) None),
             Some (errorString "API Error: : "))
  /\ checkResp (Some (fresh_response 204 EmptyString)) None
     = Returns (Some (http.Response.mk 204 ∅
                        (io.mkReadCloser EmptyString None [io.EvReadAll; io.EvClose]) None),
                Some (errorString
                        "Error parsing error body for non-200 request: unexpected end of JSON input")).
Proof. split; vm_compute; reflexivity. Qed.

(** C5.  A response with status 404 whose body is the JSON object with id
    [not_found] and message [The resource was not found]: the body decodes
    to the struct with these two fields, and the error returned is the
    text [API Error: <id>: <message>] built from them, so it holds both
    values verbatim. *)
Theorem checkResp_404_not_found
  (hdr : http.Header) (req : option http.Request.t) (evs : list io.event) :
  let r := http.Response.mk 404 hdr (io.mkReadCloser body_not_found None evs) req in
  let d := {| Id := "not_found"; Message := "The resource was not found" |} in
  json.Unmarshal body_not_found zeroDoError = (d, None)
  /\ checkResp (Some r) None
     = Returns (Some (consumed r),
                Some (errorString ("API Error: " +:+ Id d +:+ ": " +:+ Message d)))
  /\ "API Error: " +:+ Id d +:+ ": " +:+ Message d
     = "API Error: not_found: The resource was not found".
Proof.
  intros r d.
  assert (Hu : json.Unmarshal body_not_found zeroDoError = (d, None))
    by (vm_compute; reflexivity).
  split; [exact Hu|]. split; [|reflexivity].
  rewrite checkResp_nil_err, parseErr_spec. cbn [fst snd].
  unfold decode_error. subst r.
  cbn [http.Response.Body io.failure io.unread]. rewrite Hu. reflexivity.
Qed.

(** C6, as stated, fails: the body [null] is not a JSON object, yet it
    decodes without error (the struct keeps its zero value) and the error
    returned at status 500 is an API error with empty fields. *)
Lemma checkResp_null_body_is_api_error :
  checkResp (Some (fresh_response 500 "null")) None
  = Returns (Some (consumed (fresh_response 500 "null")),
             Some (errorString "API Error: : ")).
Proof. vm_compute; reflexivity. Qed.

(** C6, amended.  For every response with a failure status whose body
    does not decode (reading it fails, or [json.Unmarshal] into the error
    struct fails) with error [e], [checkResp] returns the error whose text
    is [Error parsing error body for non-200 request: ] followed by the
    text of [e]; this is not an API error, whatever id and message; and
    the body has been closed exactly once more than before the call. *)
Theorem checkResp_undecodable_body (r : http.Response.t) (e : error) :
  http.Response.StatusCode r <> 200 ->
  http.Response.StatusCode r <> 204 ->
  decode_error (http.Response.Body r) = Some e ->
  checkResp (Some r) None
  = Returns (Some (consumed r),
             Some (errorString
                     ("Error parsing error body for non-200 request: " +:+ Error e)))
  /\ (forall id msg : string,
        errorString ("Error parsing error body for non-200 request: " +:+ Error e)
        <> errorString ("API Error: " +:+ id +:+ ": " +:+ msg))
  /\ io.count io.EvClose (http.Response.Body (consumed r))
     = S (io.count io.EvClose (http.Response.Body r)).
Proof.
  intros _ _ He. split; [|split].
  - rewrite checkResp_nil_err, parseErr_spec, He. reflexivity.
  - intros id msg H. cbv [String.append] in H. discriminate H.
  - apply count_close_consumed.
Qed.

(** The theorem at a response with status 500 and an HTML body. *)
Lemma checkResp_undecodable_body_witness :
  checkResp (Some (fresh_response 500 "<html>Internal Server Error</html>")) None
  = Returns (Some (consumed (fresh_response 500 "<html>Internal Server Error</html>")),
             Some (errorString
                     ("Error parsing error body for non-200 request: " +:+
                      Error (SyntaxError
                               "invalid character '<' looking for beginning of value" 1))))
  /\ (forall id msg : string,
        errorString ("Error parsing error body for non-200 request: " +:+
                     Error (SyntaxError
                              "invalid character '<' looking for beginning of value" 1))
        <> errorString ("API Error: " +:+ id +:+ ": " +:+ msg))
  /\ io.count io.EvClose
       (http.Response.Body
          (consumed (fresh_response 500 "<html>Internal Server Error</html>")))
     = S (io.count io.EvClose
            (http.Response.Body (fresh_response 500 "<html>Internal Server Error</html>"))).
Proof.
  apply (checkResp_undecodable_body
           (fresh_response 500 "<html>Internal Server Error</html>")
           (SyntaxError "invalid character '<' looking for beginning of value" 1)).
  - vm_compute. discriminate.
  - vm_compute. discriminate.
  - vm_compute. reflexivity.
Defined.

(** C8, as stated, fails: when the API repeats the token in its message,
    the error that [checkResp] returns contains the token. *)
Lemma checkResp_error_echoes_token :
  let c := {| Token := "s3cr3t"; URL := DIGITALOCEAN_API_URL; Http := None |} in
  exists e : error,
    returned_error (checkResp (Some (fresh_response 401 body_echo)) None) = Some e
    /\ Contains (Error e) (Token c) = true.
Proof.
  intros c.
  exists (errorString "API Error: unauthorized: Unable to authenticate token s3cr3t").
  split; vm_compute; reflexivity.
Qed.

(** C8, amended.  The error that [checkResp] returns is computed from the
    status, headers and body of the response and from the transport error
    alone: for two clients, whatever their tokens, the responses to the
    requests they built (each response records the request that was sent)
    yield identical errors when status, headers and body are the same. *)
Theorem checkResp_error_independent_of_token
  (Q : string -> string) (c1 c2 : Client) (params : gmap string string)
  (method endpoint : string)
  (code : Z) (hdr : http.Header) (body : io.ReadCloser) (err : option error) :
  returned_error
    (checkResp (Some (http.Response.mk code hdr body
                        (fst (NewRequest Q c1 params method endpoint)))) err)
  = returned_error
      (checkResp (Some (http.Response.mk code hdr body
                          (fst (NewRequest Q c2 params method endpoint)))) err).
Proof.
  destruct err as [e|]; [reflexivity|].
  rewrite !checkResp_nil_err, !parseErr_spec. reflexivity.
Qed.

(** C10.  For every token string, the empty one included, [NewClient]
    returns a non-nil client whose [Token] is the given string and whose
    [URL] is the default API base URL, and a nil error. *)
Theorem NewClient_spec (token : string) :
  exists c : Client,
    NewClient token = (Some c, None)
    /\ Token c = token
    /\ URL c = DIGITALOCEAN_API_URL
    /\ URL c = "https://api.digitalocean.com/v2".
Proof. eexists. repeat split. Qed.

(* ================================================================== *)
(** * The request builder: endpoint and authorization header *)

(** C2 (the code departs from it).  [NewRequest] never looks at its
    [endpoint] argument: the result is the same for every endpoint.  For
    the default client and the endpoint [/droplets] the target is the base
    URL followed by the query, without the endpoint path. *)
Theorem NewRequest_ignores_endpoint :
  (forall (Q : string -> string) (c : Client) (params : gmap string string)
          (method endpoint1 endpoint2 : string),
      NewRequest Q c params method endpoint1 = NewRequest Q c params method endpoint2)
  /\ (url.URL_String <$> (http.Request.URL <$>
        fst (NewRequest quote_plain sample_client sample_params "GET" "/droplets")))
     = Some "https://api.digitalocean.com/v2?name=my+droplet&size=512mb".
Proof.
  split; [reflexivity|]. vm_compute. reflexivity.
Qed.

Lemma CanonicalMIMEHeaderKey_Authorization :
  http.CanonicalMIMEHeaderKey "Authorization" = "Authorization".
Proof. vm_compute. reflexivity. Qed.

Lemma http_NewRequest_Header Q method target req :
  http.NewRequest Q method target = inl req -> http.Request.Header req = ∅.
Proof.
  unfold http.NewRequest.
  destruct (negb _); [discriminate|].
  destruct (url.Parse Q target) as [u|e]; simpl; [|discriminate].
  intros [= <-]. reflexivity.
Qed.

(** The request of a successful call to [NewRequest]: the request that
    [http.NewRequest] made for the base URL with the encoded parameters as
    its query, plus the authorization header. *)
Lemma NewRequest_success Q c params method endpoint req :
  NewRequest Q c params method endpoint = (Some req, None) ->
  exists u req0,
    url.Parse Q (URL c) = inl u
    /\ http.NewRequest Q method
         (url.URL_String
            (url.set_RawQuery u
               (url.Values_Encode (range_Add (map_to_list params) ∅)))) = inl req0
    /\ req = http.Request_Header_Add req0 "Authorization" ("Bearer " +:+ Token c).
Proof.
  unfold NewRequest.
  destruct (url.Parse Q (URL c)) as [u|e]; [|discriminate].
  destruct (http.NewRequest Q method _) as [req0|e] eqn:Hreq; [|discriminate].
  intros [= <-]. exists u, req0. auto.
Qed.

(** C3.  The request that [NewRequest] produces carries exactly one
    header, [Authorization], with exactly one value: [Bearer ] followed by
    the token of the client. *)
Theorem NewRequest_authorization_header
  (Q : string -> string) (c : Client) (params : gmap string string)
  (method endpoint : string) (req : http.Request.t) :
  NewRequest Q c params method endpoint = (Some req, None) ->
  http.Request.Header req = {[ "Authorization" := ["Bearer " +:+ Token c] ]}
  /\ http.Header_Values (http.Request.Header req) "Authorization"
     = ["Bearer " +:+ Token c].
Proof.
  intros H. apply NewRequest_success in H as (u & req0 & _ & Hreq & ->).
  apply http_NewRequest_Header in Hreq.
  assert (Hh : http.Request.Header
                 (http.Request_Header_Add req0 "Authorization" ("Bearer " +:+ Token c))
               = {[ "Authorization" := ["Bearer " +:+ Token c] ]}).
  { cbn [http.Request_Header_Add http.Request.Header]. rewrite Hreq.
    unfold http.Header_Add. rewrite CanonicalMIMEHeaderKey_Authorization.
    rewrite lookup_empty. reflexivity. }
  split; [exact Hh|].
  rewrite Hh. unfold http.Header_Values.
  rewrite CanonicalMIMEHeaderKey_Authorization, lookup_singleton_eq. reflexivity.
Qed.

(** The theorem at the sample client and parameters. *)
Lemma NewRequest_authorization_header_witness :
  exists req : http.Request.t,
    NewRequest quote_plain sample_client sample_params "GET" "/droplets" = (Some req, None)
    /\ http.Request.Header req = {[ "Authorization" := ["Bearer " +:+ Token sample_client] ]}
    /\ http.Header_Values (http.Request.Header req) "Authorization"
       = ["Bearer " +:+ Token sample_client].
Proof.
  eexists. split; [vm_compute; reflexivity|].
  apply (NewRequest_authorization_header quote_plain sample_client sample_params
           "GET" "/droplets").
  vm_compute. reflexivity.
Defined.

(* ================================================================== *)
(** * Strings: cutting and searching *)

Section StringFacts.

Implicit Types (s a b : string) (c sep : ascii).

Lemma app_nil_r s : s +:+ EmptyString = s.
Proof. induction s as [|x s IH]; [reflexivity|]. change (String x (s +:+ "") = String x s). now rewrite IH. Qed.

Lemma app_assoc a b s : (a +:+ b) +:+ s = a +:+ (b +:+ s).
Proof.
  induction a as [|x a IH]; [reflexivity|].
  change (String x ((a +:+ b) +:+ s) = String x (a +:+ (b +:+ s))). now rewrite IH.
Qed.

Lemma app_cons x a b : String x a +:+ b = String x (a +:+ b).
Proof. reflexivity. Qed.

Lemma length_app a b : String.length (a +:+ b) = (String.length a + String.length b)%nat.
Proof.
  induction a as [|x a IH]; [reflexivity|].
  rewrite app_cons. simpl. now rewrite IH.
Qed.

Lemma eqb_refl c : Byte_.eqb c c = true.
Proof. apply Ascii.eqb_refl. Qed.

Lemma eqb_true c1 c2 : Byte_.eqb c1 c2 = true -> c1 = c2.
Proof. apply Ascii.eqb_eq. Qed.

Lemma ContainsByte_app a b c :
  strings.ContainsByte (a +:+ b) c = strings.ContainsByte a c || strings.ContainsByte b c.
Proof.
  induction a as [|x a IH]; [reflexivity|].
  rewrite app_cons. simpl. rewrite IH. now rewrite orb_assoc.
Qed.

Lemma Cut_app a b sep :
  strings.ContainsByte a sep = false ->
  strings.Cut (a +:+ b) sep =
  (a +:+ fst (fst (strings.Cut b sep)), snd (fst (strings.Cut b sep)), snd (strings.Cut b sep)).
Proof.
  induction a as [|x a IH]; intros H.
  - change (EmptyString +:+ b) with b.
    destruct (strings.Cut b sep) as [[? ?] ?]; reflexivity.
  - simpl in H. apply orb_false_elim in H as [Hx Ha].
    rewrite app_cons. simpl. rewrite Hx, (IH Ha). reflexivity.
Qed.

Lemma Cut_sep b sep : strings.Cut (String sep b) sep = (EmptyString, b, true).
Proof. simpl. now rewrite eqb_refl. Qed.

Lemma Cut_absent a sep :
  strings.ContainsByte a sep = false -> strings.Cut a sep = (a, EmptyString, false).
Proof.
  intros H. rewrite <- (app_nil_r a) at 1. rewrite (Cut_app _ _ _ H). simpl.
  now rewrite app_nil_r.
Qed.

(** Cutting [a sep b] where [a] holds no [sep]. *)
Lemma Cut_at a b sep :
  strings.ContainsByte a sep = false ->
  strings.Cut (a +:+ String sep b) sep = (a, b, true).
Proof.
  intros H. rewrite (Cut_app _ _ _ H), Cut_sep. simpl. now rewrite app_nil_r.
Qed.

Lemma Cut_before s sep :
  strings.ContainsByte (fst (fst (strings.Cut s sep))) sep = false.
Proof.
  induction s as [|x s IH]; [reflexivity|].
  simpl. destruct (Byte_.eqb x sep) eqn:E; [reflexivity|].
  destruct (strings.Cut s sep) as [[u v] f]. simpl in *. now rewrite E, IH.
Qed.

(** The text is the part before, and, when the separator was found, the
    separator and the part after. *)
Lemma Cut_parts s sep :
  s = fst (fst (strings.Cut s sep))
        +:+ (if snd (strings.Cut s sep)
             then String sep (snd (fst (strings.Cut s sep)))
             else EmptyString)
  /\ (snd (strings.Cut s sep) = false -> snd (fst (strings.Cut s sep)) = EmptyString).
Proof.
  induction s as [|x s [IH1 IH2]]; [split; reflexivity|].
  simpl. destruct (Byte_.eqb x sep) eqn:E.
  - apply eqb_true in E. subst. split; [reflexivity|discriminate].
  - destruct (strings.Cut s sep) as [[u v] f]. simpl in *. split; [|exact IH2].
    now rewrite IH1 at 1.
Qed.

Lemma CountByte_nonneg s c : 0 <= strings.CountByte s c.
Proof. induction s as [|x s IH]; simpl; [lia|]. destruct (Byte_.eqb x c); lia. Qed.

Lemma CountByte_zero s c :
  strings.CountByte s c = 0 -> strings.ContainsByte s c = false.
Proof.
  induction s as [|x s IH]; [reflexivity|]. simpl.
  pose proof (CountByte_nonneg s c).
  destruct (Byte_.eqb x c); intros; [lia|]. apply IH. lia.
Qed.

Lemma CountByte_absent s c :
  strings.ContainsByte s c = false -> strings.CountByte s c = 0.
Proof.
  induction s as [|x s IH]; [reflexivity|]. simpl.
  destruct (Byte_.eqb x c); [discriminate|]. intros H. now rewrite IH.
Qed.

Lemma CountByte_app a b c :
  strings.CountByte (a +:+ b) c = strings.CountByte a c + strings.CountByte b c.
Proof.
  induction a as [|x a IH]; [reflexivity|].
  rewrite app_cons. simpl. rewrite IH. lia.
Qed.

Lemma HasSuffixByte_dropLast s c :
  strings.HasSuffixByte s c = true -> s = strings.dropLast s +:+ String c EmptyString.
Proof.
  induction s as [|x s IH]; [discriminate|].
  destruct s as [|y s].
  - simpl. intros H. apply eqb_true in H. now subst.
  - intros H. change (strings.HasSuffixByte (String y s) c = true) in H.
    change (String x (String y s)
            = String x (strings.dropLast (String y s) +:+ String c EmptyString)).
    now rewrite <- (IH H).
Qed.

Lemma HasSuffixByte_app_cons a x b c :
  strings.HasSuffixByte (a +:+ String x b) c = strings.HasSuffixByte (String x b) c.
Proof.
  induction a as [|y a IH]; [reflexivity|].
  rewrite app_cons. rewrite <- IH.
  destruct (a +:+ String x b) eqn:E; [|reflexivity].
  destruct a; discriminate.
Qed.

Lemma HasSuffixByte_absent s c :
  strings.ContainsByte s c = false -> strings.HasSuffixByte s c = false.
Proof.
  induction s as [|x s IH]; [reflexivity|]. simpl.
  intros H. apply orb_false_elim in H as [Hx Hs].
  destruct s; [exact Hx|]. now apply IH.
Qed.

Lemma ContainsByte_dropLast s c :
  strings.ContainsByte s c = false -> strings.ContainsByte (strings.dropLast s) c = false.
Proof.
  induction s as [|x s IH]; [reflexivity|].
  intros H. simpl in H. apply orb_false_elim in H as [Hx Hs].
  destruct s as [|y s]; [reflexivity|].
  change (strings.ContainsByte (String x (strings.dropLast (String y s))) c = false).
  simpl. rewrite Hx. now apply IH.
Qed.

(** A text that ends with its only [c] holds no [c] once the last byte is
    dropped. *)
Lemma dropLast_only s c :
  strings.HasSuffixByte s c = true -> strings.CountByte s c = 1 ->
  strings.ContainsByte (strings.dropLast s) c = false.
Proof.
  intros Hs Hc. apply CountByte_zero.
  rewrite (HasSuffixByte_dropLast _ _ Hs), CountByte_app in Hc.
  simpl in Hc. rewrite eqb_refl in Hc. lia.
Qed.

End StringFacts.

(* ================================================================== *)
(** * Percent-encoding *)

(** [H] says that [c] is one of the bytes of a literal string: try each. *)
Ltac one_of H c tac :=
  cbn [strings.ContainsByte] in H;
  repeat (apply orb_prop in H as [H|H];
          [apply Ascii.eqb_eq in H; subst c; tac|]);
  discriminate H.

Section EscapeFacts.

Implicit Types (s : string) (c : ascii) (mode : url.encoding).

Lemma absent_neq (set : string) x c :
  strings.ContainsByte set c = false -> strings.ContainsByte set x = true ->
  Byte_.eqb x c = false.
Proof.
  intros Hc Hx. destruct (Byte_.eqb x c) eqn:E; [|reflexivity].
  apply eqb_true in E. subst. congruence.
Qed.

Lemma hexdigit_upper (i : Z) :
  strings.ContainsByte Byte_.upperhex (Byte_.hexdigit Byte_.upperhex i) = true.
Proof.
  unfold Byte_.hexdigit. generalize (Z.to_nat i). intros n.
  do 16 (destruct n as [|n]; [reflexivity|]). reflexivity.
Qed.

Lemma escape_cons c s mode :
  url.escape (String c s) mode =
  if Byte_.eqb c " " && url.isQueryMode mode then String "+" (url.escape s mode)
  else if url.shouldEscape c mode then
    String "%"
      (String (Byte_.hexdigit Byte_.upperhex (Z.shiftr (Byte_.val c) 4))
         (String (Byte_.hexdigit Byte_.upperhex (Z.land (Byte_.val c) 15))
            (url.escape s mode)))
  else String c (url.escape s mode).
Proof. reflexivity. Qed.

(** A byte that must be escaped, and that [escape] does not write itself,
    does not occur in the output of [escape]. *)
Lemma escape_avoids s mode c :
  url.shouldEscape c mode = true ->
  strings.ContainsByte escapeBytes c = false ->
  strings.ContainsByte (url.escape s mode) c = false.
Proof.
  intros Hesc Hset.
  assert (Hhex : forall i, Byte_.eqb (Byte_.hexdigit Byte_.upperhex i) c = false).
  { intros i. apply (absent_neq escapeBytes); [exact Hset|].
    unfold escapeBytes. rewrite ContainsByte_app, hexdigit_upper. apply orb_true_r. }
  induction s as [|a s IH]; [reflexivity|].
  rewrite escape_cons.
  destruct (Byte_.eqb a " " && url.isQueryMode mode).
  - cbn [strings.ContainsByte]. rewrite IH.
    rewrite (absent_neq escapeBytes "+" c Hset eq_refl). reflexivity.
  - destruct (url.shouldEscape a mode) eqn:Ea.
    + cbn [strings.ContainsByte]. rewrite IH, !Hhex.
      rewrite (absent_neq escapeBytes "%" c Hset eq_refl). reflexivity.
    + cbn [strings.ContainsByte]. rewrite IH.
      destruct (Byte_.eqb a c) eqn:E; [|reflexivity].
      apply eqb_true in E. subst. congruence.
Qed.

Lemma hex_roundtrip (a : ascii) :
  let h1 := Byte_.hexdigit Byte_.upperhex (Z.shiftr (Byte_.val a) 4) in
  let h2 := Byte_.hexdigit Byte_.upperhex (Z.land (Byte_.val a) 15) in
  url.ishex h1 && url.ishex h2 = true
  /\ Byte_.of_Z (url.unhex h1 * 16 + url.unhex h2) = a.
Proof.
  destruct a as [[] [] [] [] [] [] [] []]; vm_compute; split; reflexivity.
Qed.

Section Unescape.

Variable Q : string -> string.

Lemma unescape_plus s :
  url.unescape Q (String "+" s) url.encodeQueryComponent =
  bind (url.unescape Q s url.encodeQueryComponent) (fun t => Ok (String " " t)).
Proof. reflexivity. Qed.

Lemma unescape_percent h1 h2 s :
  url.ishex h1 && url.ishex h2 = true ->
  url.unescape Q (String "%" (String h1 (String h2 s))) url.encodeQueryComponent =
  bind (url.unescape Q s url.encodeQueryComponent)
       (fun t => Ok (String (Byte_.of_Z (url.unhex h1 * 16 + url.unhex h2)) t)).
Proof.
  intros H. cbn [url.unescape]. change (Byte_.eqb "%" "%") with true. cbv iota.
  rewrite H. reflexivity.
Qed.

Lemma unescape_plain c s :
  Byte_.eqb c "%" = false -> Byte_.eqb c "+" = false ->
  url.unescape Q (String c s) url.encodeQueryComponent =
  bind (url.unescape Q s url.encodeQueryComponent) (fun t => Ok (String c t)).
Proof.
  intros H1 H2. cbn [url.unescape]. rewrite H1, H2. reflexivity.
Qed.

(** [QueryUnescape] inverts [QueryEscape], for every byte string. *)
Lemma QueryUnescape_QueryEscape s :
  url.QueryUnescape Q (url.QueryEscape s) = Ok s.
Proof.
  unfold url.QueryUnescape, url.QueryEscape.
  induction s as [|a s IH]; [reflexivity|].
  rewrite escape_cons. cbn [url.isQueryMode]. rewrite andb_true_r.
  destruct (Byte_.eqb a " ") eqn:Esp.
  - apply eqb_true in Esp. subst a. rewrite unescape_plus, IH. reflexivity.
  - destruct (url.shouldEscape a url.encodeQueryComponent) eqn:Ea.
    + destruct (hex_roundtrip a) as [Hh Hv].
      rewrite (unescape_percent _ _ _ Hh), IH. cbn [bind]. unfold Ok.
      now rewrite Hv.
    + rewrite unescape_plain, IH; [reflexivity| |].
      * destruct (Byte_.eqb a "%") eqn:E; [|reflexivity].
        apply eqb_true in E. subst a. vm_compute in Ea. discriminate.
      * destruct (Byte_.eqb a "+") eqn:E; [|reflexivity].
        apply eqb_true in E. subst a. vm_compute in Ea. discriminate.
Qed.

End Unescape.

(** The separators of a query, the fragment and query markers are all
    escaped by [QueryEscape]. *)
Lemma QueryEscape_avoids s c :
  strings.ContainsByte "&=;?#" c = true ->
  strings.ContainsByte (url.QueryEscape s) c = false.
Proof.
  intros H. unfold url.QueryEscape.
  assert (Hc : url.shouldEscape c url.encodeQueryComponent = true
               /\ strings.ContainsByte escapeBytes c = false).
  { one_of H c ltac:(vm_compute; split; reflexivity). }
  apply escape_avoids; tauto.
Qed.

Lemma encoded_pair_avoids kv c :
  strings.ContainsByte "&;?#" c = true ->
  strings.ContainsByte (encoded_pair kv) c = false.
Proof.
  intros H. unfold encoded_pair.
  assert (H' : strings.ContainsByte "&=;?#" c = true).
  { one_of H c ltac:(reflexivity). }
  rewrite !ContainsByte_app, !(QueryEscape_avoids _ _ H').
  one_of H c ltac:(reflexivity).
Qed.

Lemma encoded_pair_nonempty kv : encoded_pair kv <> EmptyString.
Proof.
  unfold encoded_pair. intros H.
  apply (f_equal String.length) in H. rewrite !length_app in H. simpl in H. lia.
Qed.

Lemma encoded_pair_Cut kv :
  strings.Cut (encoded_pair kv) "=" =
  (url.QueryEscape (fst kv), url.QueryEscape (snd kv), true).
Proof.
  unfold encoded_pair. apply Cut_at. now apply QueryEscape_avoids.
Qed.

End EscapeFacts.

(* ================================================================== *)
(** * Query parameters: from the map to the query string and back *)

Section QueryFacts.

Variable Q : string -> string.

Implicit Types (P : gmap string string) (l : list (string * string))
  (p m : url.Values) (k v : string).

Lemma range_Add_cons k v l p :
  range_Add ((k, v) :: l) p = range_Add l (url.Values_Add p k v).
Proof. reflexivity. Qed.

Lemma range_Add_lookup l p k :
  NoDup (l.*1) -> (forall k', k' ∈ l.*1 -> p !! k' = None) ->
  range_Add l p !! k =
  match (list_to_map l : gmap string string) !! k with
  | Some v => Some [v]
  | None => p !! k
  end.
Proof.
  revert p. induction l as [|[k0 v0] l IH]; intros p Hnd Hfresh.
  - cbn. now rewrite lookup_empty.
  - cbn [fmap list_fmap fst] in Hnd. apply NoDup_cons in Hnd as [Hk0 Hnd].
    rewrite range_Add_cons, IH; [|exact Hnd|].
    + unfold url.Values_Add. rewrite (Hfresh k0) by (cbn; left).
      cbn [default app list_to_map foldr uncurry fst snd].
      destruct (decide (k = k0)) as [->|Hne].
      * rewrite (not_elem_of_list_to_map_1 l k0 Hk0).
        now rewrite !lookup_insert_eq.
      * rewrite !lookup_insert_ne by congruence. reflexivity.
    + intros k' Hk'. unfold url.Values_Add.
      rewrite lookup_insert_ne by (intros ->; contradiction).
      apply Hfresh. cbn. now right.
Qed.

(** The loop over [params] builds the same [Values] in whatever order the
    pairs of the map are visited: one value per key. *)
Lemma range_Add_any_order l P :
  l ≡ₚ map_to_list P -> range_Add l ∅ = single_valued P.
Proof.
  intros Hl.
  assert (Hnd : NoDup (l.*1)).
  { rewrite Hl. apply NoDup_fst_map_to_list. }
  apply map_eq. intros k.
  rewrite range_Add_lookup; [|exact Hnd|intros; apply lookup_empty].
  rewrite (list_to_map_proper l (map_to_list P) Hnd Hl), list_to_map_to_list.
  unfold single_valued. rewrite lookup_fmap, lookup_empty.
  now destruct (P !! k).
Qed.

Lemma Join_cons (x : string) (xs : list string) sep :
  strings.Join (x :: xs) sep =
  x +:+ match xs with [] => EmptyString | _ => sep +:+ strings.Join xs sep end.
Proof. destruct xs; [symmetry; apply app_nil_r|reflexivity]. Qed.

Lemma write_pair_nonempty buf x : x <> EmptyString -> write_pair buf x <> EmptyString.
Proof.
  intros Hx H. apply (f_equal String.length) in H. unfold write_pair in H.
  rewrite length_app in H. destruct x; [congruence|]. simpl in H. lia.
Qed.

(** Writing the pairs one after the other into a buffer joins them with
    the separator. *)
Lemma fold_write_pair (xs : list string) (buf : string) :
  Forall (fun x => x <> EmptyString) xs ->
  fold_left write_pair xs buf =
  match buf with
  | EmptyString => strings.Join xs "&"
  | _ => strings.Join (buf :: xs) "&"
  end.
Proof.
  revert buf. induction xs as [|x xs IH]; intros buf Hxs.
  - now destruct buf.
  - apply Forall_cons in Hxs as [Hx Hxs]. cbn [fold_left]. rewrite (IH _ Hxs).
    pose proof (write_pair_nonempty buf x Hx) as Hne.
    destruct (write_pair buf x) as [|c w] eqn:Hw; [congruence|]. rewrite <- Hw.
    unfold write_pair. destruct buf as [|b buf].
    + reflexivity.
    + change (Nat.ltb 0 (String.length (String b buf))) with true. cbv iota.
      rewrite !Join_cons, !app_assoc. reflexivity.
Qed.

Lemma Encode_key_single keyEscaped v buf :
  url.Encode_key keyEscaped [v] buf
  = write_pair buf (keyEscaped +:+ "=" +:+ url.QueryEscape v).
Proof. reflexivity. Qed.

Lemma Encode_fold P (ks : list string) (buf : string) :
  (forall k, k ∈ ks -> is_Some (P !! k)) ->
  fold_left
    (fun buf k => url.Encode_key (url.QueryEscape k)
                    (default [] (single_valued P !! k)) buf) ks buf
  = fold_left write_pair (encoded_pair <$> (pair_of P <$> ks)) buf.
Proof.
  revert buf. induction ks as [|k ks IH]; intros buf Hks; [reflexivity|].
  cbn [fold_left fmap list_fmap].
  rewrite <- IH by (intros; apply Hks; now right).
  destruct (Hks k) as [v Hv]; [now left|].
  unfold single_valued at 2. rewrite lookup_fmap, Hv. f_equal.
  unfold pair_of, encoded_pair. rewrite Hv. reflexivity.
Qed.

(** The sorted keys of the values built from [P], as pairs: a permutation
    of the pairs of [P]. *)
Lemma sorted_pairs P :
  let ks := merge_sort String.le ((map_to_list (single_valued P)).*1) in
  pair_of P <$> ks ≡ₚ map_to_list P
  /\ (forall k, k ∈ ks -> is_Some (P !! k))
  /\ Sorted String.le ((pair_of P <$> ks).*1).
Proof.
  intros ks.
  assert (Hks : ks ≡ₚ (map_to_list P).*1).
  { unfold ks. rewrite merge_sort_Permutation. unfold single_valued.
    rewrite map_to_list_fmap, <- list_fmap_compose.
    apply reflexive_eq. apply list_fmap_ext. now intros i [k v] _. }
  split; [|split].
  - rewrite Hks, <- list_fmap_compose.
    rewrite <- (list_fmap_id (map_to_list P)) at 2.
    apply reflexive_eq. apply list_fmap_ext. intros i [k v] Hi.
    assert (Hkv : P !! k = Some v).
    { apply elem_of_map_to_list. eapply list_elem_of_lookup_2, Hi. }
    cbn. unfold pair_of. now rewrite Hkv.
  - intros k Hk. rewrite Hks in Hk. apply list_elem_of_fmap in Hk as ([k' v] & -> & Hin).
    exists v. now apply elem_of_map_to_list.
  - rewrite <- list_fmap_compose.
    replace (fst ∘ pair_of P <$> ks) with ks.
    + apply Sorted_merge_sort; apply _.
    + rewrite <- (list_fmap_id ks) at 1. apply list_fmap_ext. reflexivity.
Qed.

(** [Encode] on the values built from [P]: the encoded pairs of [P],
    sorted by key, joined by the ampersand. *)
Lemma Values_Encode_single_valued P :
  exists l,
    l ≡ₚ map_to_list P
    /\ Sorted String.le (l.*1)
    /\ url.Values_Encode (single_valued P) = strings.Join (encoded_pair <$> l) "&".
Proof.
  destruct (sorted_pairs P) as (Hperm & Hks & Hsorted).
  eexists. split; [exact Hperm|]. split; [exact Hsorted|].
  unfold url.Values_Encode. rewrite (Encode_fold P _ _ Hks).
  rewrite fold_write_pair; [reflexivity|].
  apply Forall_forall. intros x Hx.
  apply list_elem_of_fmap in Hx as (kv & -> & _). apply encoded_pair_nonempty.
Qed.

Lemma Join_avoids l c :
  strings.ContainsByte "?#" c = true ->
  strings.ContainsByte (strings.Join (encoded_pair <$> l) "&") c = false.
Proof.
  intros H.
  assert (H' : strings.ContainsByte "&;?#" c = true) by (one_of H c ltac:(reflexivity)).
  assert (Hamp : strings.ContainsByte "&" c = false) by (one_of H c ltac:(reflexivity)).
  induction l as [|kv l IH]; [reflexivity|].
  cbn [fmap list_fmap]. rewrite Join_cons, ContainsByte_app.
  rewrite (encoded_pair_avoids kv c H'). cbn [orb].
  destruct l as [|kv' l]; [reflexivity|].
  cbn [fmap list_fmap] in IH |- *. rewrite ContainsByte_app, Hamp. exact IH.
Qed.

Lemma parseQuery_step fuel m err query k v rest found :
  query <> EmptyString ->
  strings.Cut query "&" = (encoded_pair (k, v), rest, found) ->
  url.parseQuery Q (S fuel) m query err
  = url.parseQuery Q fuel (url.Values_Add m k v) rest err.
Proof.
  intros Hne Hcut. cbn [url.parseQuery].
  apply String.eqb_neq in Hne. rewrite Hne, Hcut.
  rewrite (encoded_pair_avoids (k, v) ";" eq_refl).
  pose proof (encoded_pair_nonempty (k, v)) as Hp.
  apply String.eqb_neq in Hp. rewrite Hp.
  rewrite encoded_pair_Cut. cbn [fst snd].
  rewrite !QueryUnescape_QueryEscape. reflexivity.
Qed.

(** [parseQuery] on joined encoded pairs adds the pairs, in their order,
    to the map. *)
Lemma parseQuery_Join l m err fuel :
  (String.length (strings.Join (encoded_pair <$> l) "&") <= fuel)%nat ->
  url.parseQuery Q fuel m (strings.Join (encoded_pair <$> l) "&") err
  = (range_Add l m, err).
Proof.
  revert m fuel. induction l as [|[k v] l IH]; intros m fuel Hfuel.
  - destruct fuel; reflexivity.
  - cbn [fmap list_fmap] in Hfuel |- *. rewrite Join_cons in Hfuel |- *.
    rewrite length_app in Hfuel.
    assert (Hlen : (0 < String.length (encoded_pair (k, v)))%nat).
    { pose proof (encoded_pair_nonempty (k, v)).
      destruct (encoded_pair (k, v)); [congruence|simpl; lia]. }
    destruct fuel as [|fuel]; [lia|].
    rewrite (parseQuery_step fuel m err _ k v
               (strings.Join (encoded_pair <$> l) "&")
               (match l with [] => false | _ => true end)).
    + rewrite range_Add_cons. apply IH.
      destruct l as [|kv' l]; [simpl; lia|].
      cbn [fmap list_fmap] in Hfuel |- *. rewrite length_app in Hfuel.
      change (String.length "&") with 1%nat in Hfuel. lia.
    + intros H. apply (f_equal String.length) in H. rewrite length_app in H.
      simpl in H. lia.
    + destruct l as [|kv' l].
      * rewrite app_nil_r. apply Cut_absent. now apply encoded_pair_avoids.
      * apply Cut_at. now apply encoded_pair_avoids.
Qed.

(** Decoding the joined encoded pairs of [P], in any order, gives back
    exactly the pairs of [P]. *)
Lemma ParseQuery_pairs l P :
  l ≡ₚ map_to_list P ->
  url.ParseQuery Q (strings.Join (encoded_pair <$> l) "&") = (single_valued P, None).
Proof.
  intros Hl. unfold url.ParseQuery.
  rewrite parseQuery_Join by lia. now rewrite (range_Add_any_order l P Hl).
Qed.

End QueryFacts.

(* ================================================================== *)
(** * Parsing a URL and writing it back *)

Section ParseFacts.

Variable Q : string -> string.

Implicit Types (s raw rest : string) (u : url.URL).

Lemma plain_app a b : plain a -> plain b -> plain (a +:+ b).
Proof.
  intros [Ha1 Ha2] [Hb1 Hb2]. split; rewrite ContainsByte_app; [rewrite Ha1|rewrite Ha2]; assumption.
Qed.

Lemma plain_nil : plain EmptyString.
Proof. split; reflexivity. Qed.

Lemma plain_escape s mode :
  url.shouldEscape "?" mode = true -> url.shouldEscape "#" mode = true ->
  plain (url.escape s mode).
Proof. intros H1 H2. split; apply escape_avoids; auto. Qed.

Lemma rev_append_app (acc s : string) :
  strings.rev_append acc s = strings.rev_append acc EmptyString +:+ s.
Proof.
  revert s. induction acc as [|c acc IH]; intros s; [reflexivity|].
  simpl. rewrite (IH (String c s)), (IH (String c EmptyString)), app_assoc. reflexivity.
Qed.

Lemma getScheme_loop_inv raw acc rest first scheme path :
  url.getScheme_loop raw acc rest first = inl (scheme, path) ->
  (scheme = EmptyString /\ path = raw)
  \/ exists mid, rest = mid +:+ String ":" path
                 /\ strings.forallb schemeByte mid = true
                 /\ scheme = strings.rev_append acc EmptyString +:+ mid.
Proof.
  revert acc first. induction rest as [|c rest IH]; intros acc first H.
  - injection H as <- <-. now left.
  - cbn [url.getScheme_loop] in H.
    assert (Hstep : forall b, url.getScheme_loop raw (String c acc) rest b = inl (scheme, path) ->
                    schemeByte c = true ->
                    (scheme = EmptyString /\ path = raw)
                    \/ exists mid, String c rest = mid +:+ String ":" path
                                   /\ strings.forallb schemeByte mid = true
                                   /\ scheme = strings.rev_append acc EmptyString +:+ mid).
    { intros b Hb Hc. apply IH in Hb as [?|(mid & -> & Hmid & ->)]; [now left|right].
      exists (String c mid). split; [reflexivity|]. split.
      - cbn [strings.forallb]. now rewrite Hc, Hmid.
      - cbn [strings.rev_append]. rewrite (rev_append_app acc), app_assoc. reflexivity. }
    destruct (Byte_.isAlpha c) eqn:Ea.
    { apply (Hstep _ H). unfold schemeByte. now rewrite Ea. }
    destruct (Byte_.isDigit c || Byte_.eqb c "+" || Byte_.eqb c "-" || Byte_.eqb c ".") eqn:Ed.
    { destruct first; [injection H as <- <-; now left|].
      apply (Hstep _ H). unfold schemeByte. rewrite Ea. cbn [orb strings.ContainsByte].
      rewrite !(Ascii.eqb_sym _ c). fold (Byte_.eqb c "+") (Byte_.eqb c "-") (Byte_.eqb c ".").
      rewrite orb_false_r, !orb_assoc. exact Ed. }
    destruct (Byte_.eqb c ":") eqn:Ec.
    { destruct first; [discriminate|]. injection H as <- <-. right.
      apply eqb_true in Ec. subst c. exists EmptyString.
      split; [reflexivity|]. split; [reflexivity|]. now rewrite app_nil_r. }
    injection H as <- <-. now left.
Qed.

(** What [getScheme] returns: no scheme and the whole text, or the scheme
    before the first colon and the text after it. *)
Lemma getScheme_inv raw scheme path :
  url.getScheme raw = inl (scheme, path) ->
  (scheme = EmptyString /\ path = raw)
  \/ (raw = scheme +:+ String ":" path /\ strings.forallb schemeByte scheme = true).
Proof.
  intros H. apply getScheme_loop_inv in H as [?|(mid & -> & Hmid & ->)]; [now left|right].
  now split.
Qed.

Lemma schemeByte_plain s : strings.forallb schemeByte s = true -> plain s.
Proof.
  induction s as [|c s IH]; [intros; apply plain_nil|].
  cbn [strings.forallb]. intros H. apply andb_prop in H as [Hc Hs].
  destruct (IH Hs) as [H1 H2].
  split; cbn [strings.ContainsByte]; [rewrite H1|rewrite H2]; rewrite orb_false_r.
  - destruct (Byte_.eqb c "?") eqn:E; [|reflexivity].
    apply eqb_true in E. subst c. discriminate.
  - destruct (Byte_.eqb c "#") eqn:E; [|reflexivity].
    apply eqb_true in E. subst c. discriminate.
Qed.

Lemma schemeByte_toLower c : schemeByte c = true -> schemeByte (strings.toLowerByte c) = true.
Proof. destruct c as [[] [] [] [] [] [] [] []]; vm_compute; auto. Qed.

Lemma ToLower_scheme s :
  strings.forallb schemeByte s = true -> strings.forallb schemeByte (strings.ToLower s) = true.
Proof.
  induction s as [|c s IH]; [reflexivity|]. cbn [strings.forallb strings.ToLower].
  intros H. apply andb_prop in H as [Hc Hs].
  now rewrite (schemeByte_toLower c Hc), (IH Hs).
Qed.

(** Case analysis on the tests and calls that a hypothesis still holds. *)
Ltac split_cases :=
  repeat match goal with
         | H : context [match ?x with _ => _ end] |- _ =>
             destruct x eqn:?; try discriminate H
         end.

(** The fields that a successful [parse] determines from the split of the
    text into scheme, path and query. *)
Lemma parse_fields raw u :
  url.parse Q raw false = inl u ->
  (raw = "*" /\ url.RawQuery u = EmptyString
   /\ url.Scheme u = EmptyString /\ url.Opaque u = EmptyString)
  \/ exists scheme rest0,
       url.getScheme raw = inl (scheme, rest0)
       /\ url.Scheme u = strings.ToLower scheme
       /\ url.RawQuery u = query_of rest0
       /\ (url.Opaque u = EmptyString \/ url.Opaque u = path_of rest0).
Proof.
  unfold url.parse.
  destruct (url.stringContainsCTLByte raw); [discriminate|].
  rewrite andb_false_r.
  destruct (String.eqb raw "*") eqn:Estar.
  { intros [= <-]. left. apply String.eqb_eq in Estar. auto. }
  destruct (url.getScheme raw) as [[scheme rest0]|e]; [|discriminate].
  cbn [bind]. intros H. right. exists scheme, rest0. split; [reflexivity|].
  unfold query_of, path_of, forcesQuery.
  destruct (strings.HasSuffixByte rest0 "?" && (strings.CountByte rest0 "?" =? 1)).
  - unfold url.setPath, bind, Ok, Err in H. split_cases;
      simplify_eq; cbn; auto.
  - destruct (strings.Cut rest0 "?") as [[r q] f].
    unfold url.setPath, bind, Ok, Err in H. split_cases;
      simplify_eq; cbn; auto.
Qed.

Lemma Parse_inv raw u :
  url.Parse Q raw = inl u ->
  exists u0,
    url.parse Q (fst (fst (strings.Cut raw "#"))) false = inl u0
    /\ url.Scheme u = url.Scheme u0
    /\ url.Opaque u = url.Opaque u0
    /\ url.RawQuery u = url.RawQuery u0.
Proof.
  unfold url.Parse. destruct (strings.Cut raw "#") as [[b frag] f]. cbn [fst].
  destruct (url.parse Q b false) as [u0|e]; [|discriminate].
  unfold url.setFragment, bind, Ok, Err. intros H. exists u0.
  split; [reflexivity|]. split_cases; simplify_eq; cbn; auto.
Qed.

Lemma ContainsByte_app_false a b c :
  strings.ContainsByte (a +:+ b) c = false ->
  strings.ContainsByte a c = false /\ strings.ContainsByte b c = false.
Proof. rewrite ContainsByte_app. apply orb_false_elim. Qed.

(** The scheme and the opaque part of a parsed URL hold neither a query
    marker nor a fragment marker. *)
Lemma Parse_plain raw u :
  url.Parse Q raw = inl u -> plain (url.Scheme u) /\ plain (url.Opaque u).
Proof.
  intros H. apply Parse_inv in H as (u0 & Hparse & -> & -> & _).
  pose proof (Cut_before raw "#") as Hhash.
  set (b := fst (fst (strings.Cut raw "#"))) in *.
  apply parse_fields in Hparse
    as [(_ & _ & -> & ->)|(scheme & rest0 & Hsch & -> & _ & Hop)].
  { split; apply plain_nil. }
  assert (Hrest : plain (strings.ToLower scheme)
                  /\ strings.ContainsByte rest0 "#" = false).
  { apply getScheme_inv in Hsch as [[-> ->]|[Hb Hs]].
    - split; [apply plain_nil|exact Hhash].
    - split; [now apply schemeByte_plain, ToLower_scheme|].
      rewrite Hb in Hhash. apply ContainsByte_app_false in Hhash as [_ Hh].
      cbn [strings.ContainsByte] in Hh. now apply orb_false_elim in Hh as [_ ?]. }
  destruct Hrest as [Hscheme Hrest]. split; [exact Hscheme|].
  destruct Hop as [->| ->]; [apply plain_nil|].
  unfold path_of, forcesQuery.
  destruct (strings.HasSuffixByte rest0 "?" && (strings.CountByte rest0 "?" =? 1)) eqn:Hf.
  - apply andb_prop in Hf as [Hsuf Hcount]. apply Z.eqb_eq in Hcount.
    split; [now apply dropLast_only|now apply ContainsByte_dropLast].
  - split; [apply Cut_before|].
    destruct (Cut_parts rest0 "?") as [Hparts _]. rewrite Hparts in Hrest.
    now apply ContainsByte_app_false in Hrest as [? _].
Qed.

Lemma validEncoded_plain s : url.validEncoded s url.encodePath = true -> plain s.
Proof.
  unfold url.validEncoded.
  induction s as [|c s IH]; [intros; apply plain_nil|].
  cbn [strings.forallb]. intros H. apply andb_prop in H as [Hc Hs].
  destruct (IH Hs) as [H1 H2].
  split; cbn [strings.ContainsByte]; [rewrite H1|rewrite H2]; rewrite orb_false_r.
  - destruct (Byte_.eqb c "?") eqn:E; [|reflexivity].
    apply eqb_true in E. subst c. discriminate.
  - destruct (Byte_.eqb c "#") eqn:E; [|reflexivity].
    apply eqb_true in E. subst c. discriminate.
Qed.

Lemma EscapedPath_plain u : plain (url.EscapedPath u).
Proof.
  unfold url.EscapedPath.
  destruct (url.nonEmpty _ && _ && _) eqn:E || destruct (negb _ && _ && _) eqn:E.
  - apply andb_prop in E as [E _]. apply andb_prop in E as [_ E].
    now apply validEncoded_plain.
  - destruct (String.eqb (url.Path u) "*"); [split; reflexivity|].
    now apply plain_escape.
Qed.

Lemma Userinfo_String_plain ui : plain (url.Userinfo_String ui).
Proof.
  destruct ui as [ui|]; [|apply plain_nil]. cbn [url.Userinfo_String].
  apply plain_app; [now apply plain_escape|].
  destruct (url.passwordSet ui); [|apply plain_nil].
  apply plain_app; [split; reflexivity|now apply plain_escape].
Qed.

(** What [String] writes before the query holds neither a query marker
    nor a fragment marker. *)
Lemma String_hier_plain u :
  plain (url.Scheme u) -> plain (url.Opaque u) -> plain (url.String_hier u).
Proof.
  intros Hs Ho. unfold url.String_hier.
  pose proof (EscapedPath_plain u) as Hp.
  pose proof (Userinfo_String_plain (url.User u)) as Hu.
  destruct (url.User u) as [ui|];
    repeat match goal with
           | |- context [if ?c then _ else _] => destruct c
           end;
    repeat first [ assumption | apply plain_nil | apply plain_app
                 | now apply plain_escape | split; reflexivity ].
Qed.

Lemma String_hier_set_RawQuery u q :
  url.String_hier (url.set_RawQuery u q) = url.String_hier u.
Proof. destruct u. reflexivity. Qed.

Lemma nonEmpty_false s : url.nonEmpty s = false -> s = EmptyString.
Proof.
  unfold url.nonEmpty. intros H. apply negb_false_iff in H. now apply String.eqb_eq.
Qed.

(** The query that [parse] finds after a scheme prefix [pre], when the
    text is a plain part [h] followed by the query [q] as [String] writes
    it. *)
Lemma query_of_written h q (fq : bool) pre rest0 :
  strings.ContainsByte h "?" = false ->
  strings.ContainsByte q "?" = false ->
  strings.ContainsByte pre "?" = false ->
  pre +:+ rest0 = h +:+ (if fq || url.nonEmpty q then "?" +:+ q else EmptyString) ->
  query_of rest0 = q.
Proof.
  intros Hh Hq Hpre Heq. unfold query_of, forcesQuery.
  destruct (fq || url.nonEmpty q) eqn:Hc.
  - assert (Hcut : snd (fst (strings.Cut rest0 "?")) = q).
    { pose proof (Cut_app pre rest0 "?" Hpre) as H1. rewrite Heq in H1.
      change ("?" +:+ q) with (String "?" q) in H1.
      rewrite (Cut_at h q "?" Hh) in H1. now injection H1 as _ <- _. }
    destruct (strings.HasSuffixByte rest0 "?" && (strings.CountByte rest0 "?" =? 1)) eqn:Hf;
      [|exact Hcut].
    apply andb_prop in Hf as [Hsuf _].
    destruct q as [|a q']; [reflexivity|exfalso].
    destruct rest0 as [|r0 r']; [discriminate|].
    apply (f_equal (fun s => strings.HasSuffixByte s "?")) in Heq.
    change ("?" +:+ String a q') with (String "?" (String a q')) in Heq.
    rewrite !HasSuffixByte_app_cons, Hsuf in Heq.
    change (strings.HasSuffixByte (String "?" (String a q')) "?")
      with (strings.HasSuffixByte (String a q') "?") in Heq.
    rewrite (HasSuffixByte_absent _ _ Hq) in Heq. discriminate.
  - apply orb_false_elim in Hc as [_ Hne]. apply nonEmpty_false in Hne. subst q.
    rewrite app_nil_r in Heq. rewrite <- Heq in Hh.
    apply ContainsByte_app_false in Hh as [_ Hr].
    rewrite (HasSuffixByte_absent _ _ Hr), (Cut_absent _ _ Hr). reflexivity.
Qed.

(** Parsing what [String] wrote gives back the query, when the query is
    plain. *)
Lemma Parse_URL_String_RawQuery u u3 :
  plain (url.String_hier u) -> plain (url.RawQuery u) ->
  url.Parse Q (url.URL_String u) = inl u3 ->
  url.RawQuery u3 = url.RawQuery u.
Proof.
  intros [Hh1 Hh2] [Hq1 Hq2] HP.
  set (h := url.String_hier u) in *. set (q := url.RawQuery u) in *.
  set (qs := if url.ForceQuery u || url.nonEmpty q then "?" +:+ q else EmptyString).
  assert (Hqs : strings.ContainsByte qs "#" = false).
  { unfold qs. destruct (_ || _); [|reflexivity].
    rewrite ContainsByte_app, Hq2. reflexivity. }
  assert (Hb : fst (fst (strings.Cut (url.URL_String u) "#")) = h +:+ qs).
  { unfold url.URL_String. fold h q.
    replace (if url.ForceQuery u || url.nonEmpty q then h +:+ "?" +:+ q else h)
      with (h +:+ qs)
      by (unfold qs; destruct (_ || _); [reflexivity|apply app_nil_r]).
    assert (Hhq : strings.ContainsByte (h +:+ qs) "#" = false)
      by (rewrite ContainsByte_app, Hh2, Hqs; reflexivity).
    destruct (url.nonEmpty (url.Fragment u)).
    - change ((h +:+ qs) +:+ "#" +:+ url.EscapedFragment u)
        with ((h +:+ qs) +:+ String "#" (url.EscapedFragment u)).
      now rewrite Cut_at.
    - now rewrite Cut_absent. }
  apply Parse_inv in HP as (u0 & Hparse & _ & _ & ->). rewrite Hb in Hparse.
  apply parse_fields in Hparse
    as [(Hstar & -> & _ & _)|(scheme & rest0 & Hsch & _ & -> & _)].
  - (* the text is the asterisk: nothing was written after the path *)
    unfold qs in Hstar. destruct (_ || url.nonEmpty q) eqn:Hc.
    + apply (f_equal (fun s => strings.ContainsByte s "?")) in Hstar.
      rewrite ContainsByte_app in Hstar.
      change (strings.ContainsByte ("?" +:+ q) "?") with true in Hstar.
      rewrite orb_true_r in Hstar. discriminate.
    + apply orb_false_elim in Hc as [_ Hne]. now apply nonEmpty_false in Hne.
  - apply getScheme_inv in Hsch as [[_ ->]|[Hraw Hs]].
    + apply (query_of_written h q (url.ForceQuery u) EmptyString); auto.
    + apply (query_of_written h q (url.ForceQuery u) (scheme +:+ ":")); auto.
      * rewrite ContainsByte_app. destruct (schemeByte_plain _ Hs) as [-> _]. reflexivity.
      * rewrite app_assoc. exact (eq_sym Hraw).
Qed.

Lemma http_NewRequest_URL method target req :
  http.NewRequest Q method target = inl req ->
  exists u3, url.Parse Q target = inl u3
             /\ url.RawQuery (http.Request.URL req) = url.RawQuery u3.
Proof.
  unfold http.NewRequest.
  destruct (negb _); [discriminate|].
  destruct (url.Parse Q target) as [u3|e]; cbn [bind]; [|discriminate].
  intros [= <-]. exists u3. split; reflexivity.
Qed.

End ParseFacts.

(* ================================================================== *)
(** * The request builder: the query string *)

(** C4.  For every parameter map [P], the query string of the request
    that [NewRequest] built is the percent-encoded pairs of [P], each pair
    once and no other, joined by ampersands in the order of their keys;
    decoding it with [ParseQuery] gives back exactly the pairs of [P], one
    value per key; and so does decoding the same pairs joined in any other
    order. *)
Theorem NewRequest_query_roundtrip
  (Q : string -> string) (c : Client) (P : gmap string string)
  (method endpoint : string) (req : http.Request.t) :
  NewRequest Q c P method endpoint = (Some req, None) ->
  (exists l : list (string * string),
      l ≡ₚ map_to_list P
      /\ Sorted String.le (l.*1)
      /\ url.RawQuery (http.Request.URL req) = strings.Join (encoded_pair <$> l) "&")
  /\ url.ParseQuery Q (url.RawQuery (http.Request.URL req)) = (single_valued P, None)
  /\ (forall l' : list (string * string),
        l' ≡ₚ map_to_list P ->
        url.ParseQuery Q (strings.Join (encoded_pair <$> l') "&")
        = (single_valued P, None)).
Proof.
  intros H. apply NewRequest_success in H as (u & req0 & Hbase & Hreq & ->).
  rewrite (range_Add_any_order (map_to_list P) P) in Hreq by reflexivity.
  destruct (Values_Encode_single_valued P) as (l & Hperm & Hsorted & Henc).
  rewrite Henc in Hreq.
  apply http_NewRequest_URL in Hreq as (u3 & Hparse & Hq).
  assert (Hquery : url.RawQuery
                     (http.Request.URL
                        (http.Request_Header_Add req0 "Authorization"
                           ("Bearer " +:+ Token c)))
                   = strings.Join (encoded_pair <$> l) "&").
  { cbn [http.Request_Header_Add http.Request.URL]. rewrite Hq.
    apply Parse_URL_String_RawQuery in Hparse.
    - rewrite Hparse. now destruct u.
    - rewrite String_hier_set_RawQuery.
      destruct (Parse_plain Q _ _ Hbase). now apply String_hier_plain.
    - replace (url.RawQuery (url.set_RawQuery u (strings.Join (encoded_pair <$> l) "&")))
        with (strings.Join (encoded_pair <$> l) "&") by now destruct u.
      split; now apply Join_avoids. }
  split; [|split].
  - exists l. auto.
  - rewrite Hquery. now apply ParseQuery_pairs.
  - intros l' Hl'. now apply ParseQuery_pairs.
Qed.

(** The theorem at the sample client and parameters. *)
Lemma NewRequest_query_roundtrip_witness :
  exists req : http.Request.t,
    NewRequest quote_plain sample_client sample_params "GET" "/droplets" = (Some req, None)
    /\ (exists l : list (string * string),
           l ≡ₚ map_to_list sample_params
           /\ Sorted String.le (l.*1)
           /\ url.RawQuery (http.Request.URL req)
              = strings.Join (encoded_pair <$> l) "&")
    /\ url.ParseQuery quote_plain (url.RawQuery (http.Request.URL req))
       = (single_valued sample_params, None)
    /\ (forall l' : list (string * string),
          l' ≡ₚ map_to_list sample_params ->
          url.ParseQuery quote_plain (strings.Join (encoded_pair <$> l') "&")
          = (single_valued sample_params, None)).
Proof.
  eexists. split; [vm_compute; reflexivity|].
  apply (NewRequest_query_roundtrip quote_plain sample_client sample_params
           "GET" "/droplets").
  vm_compute. reflexivity.
Defined.

(* ================================================================== *)
(** * The request builder succeeds for the client of [NewClient] *)

Section DefaultClient.

Variable Q : string -> string.

Lemma stringContainsCTLByte_cons c s :
  url.stringContainsCTLByte (String c s)
  = ((Byte_.val c <? 32) || (Byte_.val c =? 127)) || url.stringContainsCTLByte s.
Proof.
  unfold url.stringContainsCTLByte. cbn [strings.forallb].
  now rewrite negb_andb, negb_involutive.
Qed.

Lemma stringContainsCTLByte_app a b :
  url.stringContainsCTLByte (a +:+ b)
  = url.stringContainsCTLByte a || url.stringContainsCTLByte b.
Proof.
  induction a as [|c a IH]; [reflexivity|].
  rewrite app_cons, !stringContainsCTLByte_cons, IH. now rewrite orb_assoc.
Qed.

Lemma unescaped_query_byte_not_CTL c :
  url.shouldEscape c url.encodeQueryComponent = false ->
  (Byte_.val c <? 32) || (Byte_.val c =? 127) = false.
Proof. destruct c as [[] [] [] [] [] [] [] []]; vm_compute; auto. Qed.

Lemma escapeBytes_not_CTL c :
  strings.ContainsByte escapeBytes c = true ->
  (Byte_.val c <? 32) || (Byte_.val c =? 127) = false.
Proof. intros H. unfold escapeBytes in H. one_of H c ltac:(reflexivity). Qed.

(** [QueryEscape] writes no control character. *)
Lemma QueryEscape_no_CTL s : url.stringContainsCTLByte (url.QueryEscape s) = false.
Proof.
  unfold url.QueryEscape.
  assert (Hhex : forall i, url.stringContainsCTLByte
                             (strings.singleton (Byte_.hexdigit Byte_.upperhex i)) = false).
  { intros i. unfold strings.singleton. rewrite stringContainsCTLByte_cons.
    rewrite escapeBytes_not_CTL; [reflexivity|].
    unfold escapeBytes. rewrite ContainsByte_app, hexdigit_upper. apply orb_true_r. }
  induction s as [|a s IH]; [reflexivity|].
  rewrite escape_cons.
  destruct (Byte_.eqb a " " && url.isQueryMode url.encodeQueryComponent).
  - rewrite stringContainsCTLByte_cons, IH. reflexivity.
  - destruct (url.shouldEscape a url.encodeQueryComponent) eqn:Ea.
    + rewrite stringContainsCTLByte_cons.
      change (String ?h1 (String ?h2 ?t))
        with (strings.singleton h1 +:+ (strings.singleton h2 +:+ t)).
      rewrite !stringContainsCTLByte_app, !Hhex, IH. reflexivity.
    + rewrite stringContainsCTLByte_cons, IH, (unescaped_query_byte_not_CTL a Ea).
      reflexivity.
Qed.

Lemma Join_no_CTL (l : list (string * string)) :
  url.stringContainsCTLByte (strings.Join (encoded_pair <$> l) "&") = false.
Proof.
  induction l as [|kv l IH]; [reflexivity|].
  cbn [fmap list_fmap]. rewrite Join_cons, stringContainsCTLByte_app.
  unfold encoded_pair at 1.
  rewrite !stringContainsCTLByte_app, !QueryEscape_no_CTL. cbn [orb].
  destruct l as [|kv' l]; [reflexivity|].
  cbn [fmap list_fmap] in IH |- *. rewrite stringContainsCTLByte_app, IH. reflexivity.
Qed.

Lemma getScheme_loop_alpha raw acc mid rest first :
  strings.forallb Byte_.isAlpha mid = true ->
  (mid = EmptyString -> first = false) ->
  url.getScheme_loop raw acc (mid +:+ String ":" rest) first
  = Ok (strings.rev_append acc EmptyString +:+ mid, rest).
Proof.
  revert acc first. induction mid as [|c mid IH]; intros acc first Hmid Hfirst.
  - rewrite (Hfirst eq_refl), app_nil_r. reflexivity.
  - cbn [strings.forallb] in Hmid. apply andb_prop in Hmid as [Hc Hmid].
    rewrite app_cons. cbn [url.getScheme_loop]. rewrite Hc.
    rewrite IH by (auto; discriminate). cbn [strings.rev_append].
    rewrite (rev_append_app acc), app_assoc. reflexivity.
Qed.

(** The base URL of the client of [NewClient], with a query [q] as
    [Encode] writes it, parses. *)
Lemma Parse_default_with_query (u0 : url.URL) (q : string) :
  url.Parse Q DIGITALOCEAN_API_URL = inl u0 ->
  plain q -> url.stringContainsCTLByte q = false ->
  exists u, url.Parse Q (url.URL_String (url.set_RawQuery u0 q)) = inl u.
Proof.
  intros Hu0 [Hq1 Hq2] Hctl.
  assert (Hu : u0 = url.mkURL "https" EmptyString None "api.digitalocean.com" "/v2"
                      EmptyString false false EmptyString EmptyString EmptyString).
  { vm_compute in Hu0. now injection Hu0 as <-. }
  subst u0. clear Hu0.
  destruct q as [|a q'].
  { eexists. vm_compute. reflexivity. }
  set (q := String a q') in *.
  assert (Htarget : url.URL_String
                      (url.set_RawQuery
                         (url.mkURL "https" EmptyString None "api.digitalocean.com" "/v2"
                            EmptyString false false EmptyString EmptyString EmptyString) q)
                    = "https" +:+ String ":" ("//api.digitalocean.com/v2" +:+ String "?" q)).
  { reflexivity. }
  rewrite Htarget. clear Htarget.
  set (rest := "//api.digitalocean.com/v2" +:+ String "?" q).
  set (raw := "https" +:+ String ":" rest).
  assert (Hhash : strings.ContainsByte raw "#" = false).
  { unfold raw, rest. change (String "?" q) with ("?" +:+ q).
    change (String ":" ?x) with (":" +:+ x).
    rewrite !ContainsByte_app, Hq2. reflexivity. }
  assert (Hraw_ctl : url.stringContainsCTLByte raw = false).
  { unfold raw, rest. change (String "?" q) with ("?" +:+ q).
    change (String ":" ?x) with (":" +:+ x).
    rewrite !stringContainsCTLByte_app, Hctl. reflexivity. }
  assert (Hforces : strings.HasSuffixByte rest "?" && (strings.CountByte rest "?" =? 1) = false).
  { unfold rest. rewrite HasSuffixByte_app_cons.
    change (strings.HasSuffixByte (String "?" q) "?") with (strings.HasSuffixByte q "?").
    now rewrite (HasSuffixByte_absent _ _ Hq1). }
  assert (Hcut : strings.Cut rest "?" = ("//api.digitalocean.com/v2", q, true)).
  { unfold rest. now apply Cut_at. }
  assert (Hsch : url.getScheme raw = Ok ("https", rest)).
  { unfold url.getScheme, raw. now rewrite getScheme_loop_alpha. }
  assert (Hstar : String.eqb raw "*" = false) by reflexivity.
  unfold url.Parse. rewrite (Cut_absent _ _ Hhash).
  unfold url.parse. rewrite Hraw_ctl, Hstar, Hsch. cbn [bind Ok andb].
  rewrite Hforces, Hcut.
  eexists. vm_compute. reflexivity.
Qed.

(** For the client that [NewClient] returns, whatever the token, and for
    every parameter map, valid method and endpoint, [NewRequest] returns a
    request and a nil error. *)
Lemma NewRequest_default_client_succeeds
  (token : string) (c : Client) (P : gmap string string) (method endpoint : string) :
  NewClient token = (Some c, None) ->
  http.validMethod method = true ->
  exists req, NewRequest Q c P method endpoint = (Some req, None).
Proof.
  unfold NewClient. intros [= <-] Hm.
  unfold NewRequest. cbn [URL].
  destruct (url.Parse Q DIGITALOCEAN_API_URL) as [u0|e] eqn:Hu0;
    [|vm_compute in Hu0; discriminate].
  rewrite (range_Add_any_order (map_to_list P) P) by reflexivity.
  destruct (Values_Encode_single_valued P) as (l & _ & _ & ->).
  destruct (Parse_default_with_query u0 (strings.Join (encoded_pair <$> l) "&") Hu0)
    as [u Hu].
  { split; now apply Join_avoids. }
  { apply Join_no_CTL. }
  unfold http.NewRequest.
  assert (Hmethod : (if String.eqb method EmptyString then "GET" else method) = method).
  { destruct method; [discriminate|reflexivity]. }
  rewrite Hmethod, Hm, Hu. cbn [negb bind Ok]. eexists. reflexivity.
Qed.

End DefaultClient.

(* ================================================================== *)
(** * Further properties of the validator *)

Section ValidatorMore.

Implicit Types (r : http.Response.t) (e : error).

Lemma HasPrefix_app (prefix s : string) : strings.HasPrefix (prefix +:+ s) prefix = true.
Proof.
  induction prefix as [|c p IH]; [now destruct s|].
  rewrite app_cons. cbn [strings.HasPrefix]. now rewrite eqb_refl, IH.
Qed.

(** X1.  [checkResp] is idempotent: passing the pair it returned through
    [checkResp] again gives the same pair back, and the body is not read
    or closed a second time. *)
Theorem checkResp_idempotent
  (resp resp' : option http.Response.t) (err err' : option error) :
  checkResp resp err = Returns (resp', err') ->
  checkResp resp' err' = Returns (resp', err').
Proof.
  destruct err as [e|].
  - intros [= <- <-]. reflexivity.
  - destruct resp as [r|]; [|discriminate].
    rewrite checkResp_nil_err, parseErr_spec. cbn [fst snd].
    intros [= <- <-]. reflexivity.
Qed.

(** The theorem at a response with status 404 and an error body. *)
Lemma checkResp_idempotent_witness :
  checkResp (Some (consumed (fresh_response 404 body_not_found)))
    (Some (errorString "API Error: not_found: The resource was not found"))
  = Returns (Some (consumed (fresh_response 404 body_not_found)),
             Some (errorString "API Error: not_found: The resource was not found")).
Proof.
  apply (checkResp_idempotent (Some (fresh_response 404 body_not_found)) _ None).
  vm_compute. reflexivity.
Defined.

(** X3.  The error of [parseErr] is a function of the body alone: responses
    with the same body give the same error, whatever their status codes,
    headers and requests. *)
Theorem parseErr_error_depends_on_body_only r1 r2 :
  http.Response.Body r1 = http.Response.Body r2 ->
  snd (parseErr r1) = snd (parseErr r2).
Proof. intros H. rewrite !parseErr_spec. cbn [snd]. now rewrite H. Qed.

(** The theorem at a 404 and a 500 response with the same body. *)
Lemma parseErr_error_depends_on_body_only_witness :
  snd (parseErr (fresh_response 404 body_not_found))
  = snd (parseErr (http.Response.mk 500 {[ "Content-Type" := ["application/json"] ]}
                     (io.mkReadCloser body_not_found None []) None)).
Proof.
  apply parseErr_error_depends_on_body_only. reflexivity.
Defined.

(** X4.  Every error that [checkResp] makes itself (the transport error
    being nil) is a plain [errorString]: its text starts with [API Error: ]
    or with [Error parsing error body for non-200 request: ], and the
    value of the decode error is not kept, only its text. *)
Theorem checkResp_error_is_text (r : http.Response.t) :
  exists msg : string,
    returned_error (checkResp (Some r) None) = Some (errorString msg)
    /\ (strings.HasPrefix msg "API Error: " = true
        \/ exists e, decode_error (http.Response.Body r) = Some e
                     /\ msg = "Error parsing error body for non-200 request: " +:+ Error e).
Proof.
  rewrite checkResp_nil_err, parseErr_spec. cbn [fst snd returned_error].
  destruct (decode_error (http.Response.Body r)) as [e|].
  - eexists. split; [reflexivity|]. right. exists e. auto.
  - eexists. split; [reflexivity|]. left. apply HasPrefix_app.
Qed.

(** X5.  On each of its three paths (the read fails, the JSON does not
    decode, the JSON decodes) [decodeBody] reads the body to the end and
    then closes it, once, and touches nothing else of the response; when
    the read fails it returns the reader's own error and leaves [out] as
    it was, without decoding what was read. *)
Theorem decodeBody_always_closes (r : http.Response.t) (out : DoError) :
  let r' := fst (fst (decodeBody r out)) in
  io.events (http.Response.Body r')
  = io.events (http.Response.Body r) ++ [io.EvReadAll; io.EvClose]
  /\ io.count io.EvClose (http.Response.Body r')
     = S (io.count io.EvClose (http.Response.Body r))
  /\ http.Response.StatusCode r' = http.Response.StatusCode r
  /\ http.Response.Header r' = http.Response.Header r
  /\ http.Response.Request r' = http.Response.Request r
  /\ (forall e, io.failure (http.Response.Body r) = Some e ->
                decodeBody r out = (r', out, Some e)).
Proof.
  intros r'. subst r'. rewrite decodeBody_response.
  split; [apply events_consumed|]. split; [apply count_close_consumed|].
  repeat split.
  intros e He. unfold decodeBody, consumed, drained. cbn [io.ReadAll snd].
  rewrite He. reflexivity.
Qed.

End ValidatorMore.

(* ================================================================== *)
(** * Error bodies written without escapes decode to their fields *)

Section PlainErrorBody.

Implicit Types (s rest : string) (c : ascii).

Lemma jsonPlainByte_inv c :
  jsonPlainByte c = true ->
  Byte_.eqb c "034" = false /\ Byte_.eqb c "\" = false
  /\ (Byte_.val c <? 32) = false /\ (Byte_.val c <? 128) = true.
Proof.
  unfold jsonPlainByte. intros H.
  apply andb_prop in H as [H Hb]. apply andb_prop in H as [H Hq].
  apply andb_prop in H as [Hlo Hhi].
  apply negb_true_iff in Hb, Hq. repeat split; auto.
  apply Z.ltb_ge. now apply Z.leb_le.
Qed.

Lemma checkValid_loop_cons c data scan :
  json.checkValid_loop (String c data) scan =
  let scan1 := json.mkScanner (json.step scan) (json.endTop scan) (json.parseStack scan)
                 (json.err scan) (json.bytes scan + 1) in
  if json.is_scanError (snd (json.do_step scan1 c)) then json.err (fst (json.do_step scan1 c))
  else json.checkValid_loop data (fst (json.do_step scan1 c)).
Proof. cbn [json.checkValid_loop]. now destruct (json.do_step _ c). Qed.

(** Inside a string literal the scanner passes over plain bytes. *)
Lemma scan_plain s rest et ps er n :
  strings.forallb jsonPlainByte s = true ->
  exists n',
    json.checkValid_loop (s +:+ rest) (json.mkScanner json.stateInString et ps er n)
    = json.checkValid_loop rest (json.mkScanner json.stateInString et ps er n').
Proof.
  revert n. induction s as [|c s IH]; intros n Hs; [now exists n|].
  cbn [strings.forallb] in Hs. apply andb_prop in Hs as [Hc Hs].
  apply jsonPlainByte_inv in Hc as (Hq & Hb & Hlo & _).
  destruct (IH (n + 1) Hs) as [n' Hn']. exists n'.
  rewrite app_cons, checkValid_loop_cons. cbn [json.step json.endTop json.parseStack
    json.err json.bytes]. unfold json.do_step. cbn [json.step].
  rewrite Hq, Hb, Hlo. cbn [fst snd json.is_scanError]. exact Hn'.
Qed.

Lemma lex_plain s rest acc pos :
  strings.forallb jsonPlainByte s = true ->
  exists off,
    json.lex (s +:+ String "034" rest) pos (json.LString acc false)
    = json.TString (strings.rev_append acc EmptyString +:+ s) off
        :: json.lex rest off json.LTop.
Proof.
  revert acc pos. induction s as [|c s IH]; intros acc pos Hs.
  - exists (pos + 1). cbn [json.lex]. change (Byte_.eqb "034" "034") with true. cbv iota.
    now rewrite app_nil_r.
  - cbn [strings.forallb] in Hs. apply andb_prop in Hs as [Hc Hs].
    apply jsonPlainByte_inv in Hc as (Hq & Hb & _ & _).
    destruct (IH (String c acc) (pos + 1) Hs) as [off Hoff]. exists off.
    rewrite app_cons. cbn [json.lex]. rewrite Hq, Hb, Hoff.
    cbn [strings.rev_append]. rewrite (rev_append_app acc (String c EmptyString)), app_assoc.
    reflexivity.
Qed.

Lemma unquote_loop_plain s fuel :
  (String.length s <= fuel)%nat ->
  strings.forallb jsonPlainByte s = true ->
  json.unquote_loop fuel s = Some s.
Proof.
  revert fuel. induction s as [|c s IH]; intros fuel Hf Hs.
  - now destruct fuel.
  - cbn [strings.forallb] in Hs. apply andb_prop in Hs as [Hc Hs].
    apply jsonPlainByte_inv in Hc as (Hq & Hb & Hlo & Hhi).
    destruct fuel as [|fuel]; [simpl in Hf; lia|].
    cbn [json.unquote_loop]. rewrite Hb, Hq, Hlo, Hhi. cbn [orb].
    rewrite IH; [reflexivity| |exact Hs]. simpl in Hf. lia.
Qed.

Lemma unquote_plain s :
  strings.forallb jsonPlainByte s = true -> json.unquote s = Some s.
Proof. intros H. apply unquote_loop_plain; [lia|exact H]. Qed.

(** One byte of input through the scanner: the step on the concrete state
    and byte is evaluated, the byte count is left alone. *)
Ltac scan_byte :=
  rewrite checkValid_loop_cons;
  cbn [json.step json.endTop json.parseStack json.err json.bytes];
  cbv zeta;
  match goal with
  | |- context [json.do_step (json.mkScanner ?st ?et ?ps ?er ?b) ?c] =>
      let m := fresh "m" in
      generalize b; intros m;
      let v := eval vm_compute in (json.do_step (json.mkScanner st et ps er m) c) in
      change (json.do_step (json.mkScanner st et ps er m) c) with v
  end;
  cbn [fst snd json.is_scanError].

(** A literal prefix written out byte by byte. *)
Ltac spell lit :=
  let v := eval vm_compute in lit in
  change lit with v;
  rewrite ?app_cons;
  repeat match goal with
         | |- context [EmptyString +:+ ?y] => change (EmptyString +:+ y) with y
         end.

(** The JSON object with the members id and message, both written without
    escapes, is valid JSON. *)
Lemma checkValid_error_body (id msg : string) :
  strings.forallb jsonPlainByte id = true ->
  strings.forallb jsonPlainByte msg = true ->
  json.checkValid (error_body id msg) = None.
Proof.
  intros Hid Hmsg. unfold error_body, json.checkValid.
  spell (dquote "{'id':'"). do 7 scan_byte.
  match goal with
  | |- json.checkValid_loop _ (json.mkScanner _ ?et ?ps ?er ?n) = _ =>
      destruct (scan_plain id (dquote "','message':'" +:+ (msg +:+ dquote "'}"))
                  et ps er n Hid) as [n1 ->]
  end.
  spell (dquote "','message':'"). do 13 scan_byte.
  match goal with
  | |- json.checkValid_loop _ (json.mkScanner _ ?et ?ps ?er ?n) = _ =>
      destruct (scan_plain msg (dquote "'}") et ps er n Hmsg) as [n2 ->]
  end.
  spell (dquote "'}"). do 2 scan_byte. reflexivity.
Qed.

(** Its tokens, up to the offsets. *)
Lemma tokens_error_body (id msg : string) :
  strings.forallb jsonPlainByte id = true ->
  strings.forallb jsonPlainByte msg = true ->
  exists o1 o2 o3 o4 o5,
    json.tokens (error_body id msg)
    = [json.TBeginObject o1; json.TString "id" o2; json.TColon; json.TString id o3;
       json.TComma; json.TString "message" o4; json.TColon; json.TString msg o5;
       json.TEndObject].
Proof.
  intros Hid Hmsg. unfold error_body, json.tokens.
  spell (dquote "{'id':'").
  cbn [json.lex json.lexTopByte json.isSpace Byte_.eqb Ascii.eqb Bool.eqb andb orb
       app strings.rev_append].
  match goal with
  | |- context [json.lex (id +:+ _) ?p (json.LString ?acc false)] =>
      spell (dquote "','message':'");
      match goal with
      | |- context [json.lex (id +:+ String _ ?rest) p _] =>
          destruct (lex_plain id rest acc p Hid) as [o3 ->]
      end
  end.
  cbn [json.lex json.lexTopByte json.isSpace Byte_.eqb Ascii.eqb Bool.eqb andb orb
       app strings.rev_append].
  match goal with
  | |- context [json.lex (msg +:+ _) ?p (json.LString ?acc false)] =>
      spell (dquote "'}");
      match goal with
      | |- context [json.lex (msg +:+ String _ ?rest) p _] =>
          destruct (lex_plain msg rest acc p Hmsg) as [o5 ->]
      end
  end.
  cbn [json.lex json.lexTopByte json.isSpace Byte_.eqb Ascii.eqb Bool.eqb andb orb
       app strings.rev_append].
  do 5 eexists. reflexivity.
Qed.

(** The JSON object with the members id and message, both written without
    escapes, decodes to the struct with these fields. *)
Lemma Unmarshal_error_body (id msg : string) (out : DoError) :
  strings.forallb jsonPlainByte id = true ->
  strings.forallb jsonPlainByte msg = true ->
  json.Unmarshal (error_body id msg) out = ({| Id := id; Message := msg |}, None).
Proof.
  intros Hid Hmsg. unfold json.Unmarshal.
  rewrite (checkValid_error_body id msg Hid Hmsg).
  destruct (tokens_error_body id msg Hid Hmsg) as (o1 & o2 & o3 & o4 & o5 & ->).
  cbn [json.unmarshal json.object].
  change (json.unquote "id") with (Some "id").
  change (json.unquote "message") with (Some "message").
  cbn [from_option].
  change (json.lookupField "id") with (Some json.fieldId).
  change (json.lookupField "message") with (Some json.fieldMessage).
  cbn [json.storeLiteral]. rewrite (unquote_plain id Hid), (unquote_plain msg Hmsg).
  reflexivity.
Qed.

End PlainErrorBody.

(** X6.  For every id and message made of plain bytes (ASCII from the
    space on, without double quote and backslash), a response whose body is
    the JSON object with these two members yields the error
    [API Error: <id>: <message>], with both strings verbatim, whatever the
    status code. *)
Theorem checkResp_api_error (r : http.Response.t) (id msg : string) :
  io.failure (http.Response.Body r) = None ->
  io.unread (http.Response.Body r) = error_body id msg ->
  strings.forallb jsonPlainByte id = true ->
  strings.forallb jsonPlainByte msg = true ->
  checkResp (Some r) None
  = Returns (Some (consumed r),
             Some (errorString ("API Error: " +:+ id +:+ ": " +:+ msg))).
Proof.
  intros Hf Hb Hid Hmsg.
  rewrite checkResp_nil_err, parseErr_spec. cbn [fst snd].
  unfold decode_error. rewrite Hf, Hb, (Unmarshal_error_body id msg _ Hid Hmsg).
  reflexivity.
Qed.

(** The theorem at a response with status 422. *)
Lemma checkResp_api_error_witness :
  checkResp (Some (fresh_response 422
                     (error_body "unprocessable_entity" "Name is already in use"))) None
  = Returns (Some (consumed (fresh_response 422
                               (error_body "unprocessable_entity" "Name is already in use"))),
             Some (errorString ("API Error: " +:+ "unprocessable_entity" +:+ ": "
                                +:+ "Name is already in use"))).
Proof.
  apply (checkResp_api_error
           (fresh_response 422 (error_body "unprocessable_entity" "Name is already in use"))
           "unprocessable_entity" "Name is already in use");
    vm_compute; reflexivity.
Defined.

(* ================================================================== *)
(** * Further properties of the request builder *)

Section BuilderMore.

Variable Q : string -> string.

Implicit Types (c : Client) (P : gmap string string) (req : http.Request.t).

(** The query of the request that [NewRequest] built is what [Encode]
    makes of the parameters. *)
Lemma NewRequest_RawQuery c P method endpoint req :
  NewRequest Q c P method endpoint = (Some req, None) ->
  url.RawQuery (http.Request.URL req) = url.Values_Encode (single_valued P).
Proof.
  intros H. apply NewRequest_success in H as (u & req0 & Hbase & Hreq & ->).
  rewrite (range_Add_any_order (map_to_list P) P) in Hreq by reflexivity.
  destruct (Values_Encode_single_valued P) as (l & _ & _ & Henc).
  rewrite Henc in Hreq |- *.
  apply http_NewRequest_URL in Hreq as (u3 & Hparse & Hq).
  cbn [http.Request_Header_Add http.Request.URL]. rewrite Hq.
  apply Parse_URL_String_RawQuery in Hparse.
  - rewrite Hparse. now destruct u.
  - rewrite String_hier_set_RawQuery.
    destruct (Parse_plain Q _ _ Hbase). now apply String_hier_plain.
  - replace (url.RawQuery (url.set_RawQuery u (strings.Join (encoded_pair <$> l) "&")))
      with (strings.Join (encoded_pair <$> l) "&") by now destruct u.
    split; now apply Join_avoids.
Qed.

Lemma http_NewRequest_fields method target req :
  http.NewRequest Q method target = inl req ->
  http.Request.Method req = (if String.eqb method EmptyString then "GET" else method)
  /\ http.Request.Body req = None
  /\ http.Request.Proto req = "HTTP/1.1"
  /\ http.Request.Host req = url.Host (http.Request.URL req).
Proof.
  unfold http.NewRequest.
  destruct (negb _); [discriminate|].
  destruct (url.Parse Q target) as [u|e]; cbn [bind]; [|discriminate].
  intros [= <-]. cbn. now destruct u.
Qed.

(** X9.  A base URL that holds an ASCII control character before its
    fragment (a line feed left at the end of a configured URL, say) makes
    every call of [NewRequest] fail, whatever the parameters, the method
    and the endpoint: no request, and the error
    [Error parsing base URL: parse <quoted URL>: net/url: invalid control
    character in URL]. *)
Theorem NewRequest_control_character_in_base_URL c P method endpoint :
  url.stringContainsCTLByte (before_fragment (URL c)) = true ->
  NewRequest Q c P method endpoint
  = (None,
     Some (errorString
             ("Error parsing base URL: " +:+ "parse " +:+ Q (before_fragment (URL c))
              +:+ ": " +:+ "net/url: invalid control character in URL"))).
Proof.
  unfold before_fragment, NewRequest, url.Parse. intros H.
  destruct (strings.Cut (URL c) "#") as [[b frag] found]. cbn [fst] in H.
  unfold url.parse. rewrite H. reflexivity.
Qed.

(** X10.  With a base URL that parses, a method that is not empty and is
    not an HTTP token (it holds a space, a slash, a byte outside ASCII,
    ...) makes [NewRequest] fail with the error
    [Error creating request: net/http: invalid method <quoted method>];
    no request is returned. *)
Theorem NewRequest_invalid_method c P method endpoint (u : url.URL) :
  url.Parse Q (URL c) = inl u ->
  method <> EmptyString ->
  http.validMethod method = false ->
  NewRequest Q c P method endpoint
  = (None,
     Some (errorString
             ("Error creating request: " +:+ "net/http: invalid method " +:+ Q method))).
Proof.
  intros Hu Hne Hm. unfold NewRequest. rewrite Hu.
  unfold http.NewRequest. apply String.eqb_neq in Hne. rewrite Hne, Hm. reflexivity.
Qed.

(** X11.  The request that [NewRequest] built has the given method, or
    [GET] when the method given is empty; it has no body, and its [Host]
    is the host of its URL. *)
Theorem NewRequest_method_and_body c P method endpoint req :
  NewRequest Q c P method endpoint = (Some req, None) ->
  http.Request.Method req = (if String.eqb method EmptyString then "GET" else method)
  /\ http.Request.Body req = None
  /\ http.Request.Host req = url.Host (http.Request.URL req).
Proof.
  intros H. apply NewRequest_success in H as (u & req0 & _ & Hreq & ->).
  apply http_NewRequest_fields in Hreq as (Hm & Hb & _ & Hh).
  cbn [http.Request_Header_Add http.Request.Method http.Request.Body
       http.Request.Host http.Request.URL]. auto.
Qed.

End BuilderMore.

(** The theorem at a base URL that ends with a line feed. *)
Lemma NewRequest_control_character_in_base_URL_witness :
  NewRequest quote_plain client_with_newline sample_params "GET" "/droplets"
  = (None,
     Some (errorString
             ("Error parsing base URL: " +:+ "parse "
              +:+ quote_plain (before_fragment (URL client_with_newline))
              +:+ ": " +:+ "net/url: invalid control character in URL"))).
Proof.
  apply (NewRequest_control_character_in_base_URL quote_plain). vm_compute. reflexivity.
Defined.

(** The theorem at a method with a space and a slash. *)
Lemma NewRequest_invalid_method_witness :
  NewRequest quote_plain sample_client sample_params "GET /" "/droplets"
  = (None,
     Some (errorString
             ("Error creating request: " +:+ "net/http: invalid method " +:+ quote_plain "GET /"))).
Proof.
  apply (NewRequest_invalid_method quote_plain sample_client sample_params "GET /" "/droplets"
           (url.mkURL "https" EmptyString None "api.digitalocean.com" "/v2"
              EmptyString false false EmptyString EmptyString EmptyString)).
  - vm_compute. reflexivity.
  - discriminate.
  - vm_compute. reflexivity.
Defined.


(** The theorem at an empty method: the request is a [GET]. *)
Lemma NewRequest_method_and_body_witness :
  exists req,
    NewRequest quote_plain sample_client sample_params EmptyString "/droplets"
    = (Some req, None)
    /\ http.Request.Method req = "GET"
    /\ http.Request.Body req = None
    /\ http.Request.Host req = url.Host (http.Request.URL req).
Proof.
  eexists. split; [vm_compute; reflexivity|].
  apply (NewRequest_method_and_body quote_plain sample_client sample_params
           EmptyString "/droplets").
  vm_compute. reflexivity.
Defined.

(* ================================================================== *)
(** * The parameters in the query, the token in the header *)

Section QueryMore.

Variable Q : string -> string.

Implicit Types (c : Client) (P : gmap string string) (req : http.Request.t).

Lemma forallb_app (p : ascii -> bool) (a b : string) :
  strings.forallb p (a +:+ b) = strings.forallb p a && strings.forallb p b.
Proof.
  induction a as [|x a IH]; [reflexivity|].
  rewrite app_cons. cbn [strings.forallb]. now rewrite IH, andb_assoc.
Qed.

Lemma unescaped_query_byte_safe (a : ascii) :
  url.shouldEscape a url.encodeQueryComponent = false -> querySafeByte a = true.
Proof. destruct a as [[] [] [] [] [] [] [] []]; vm_compute; auto. Qed.

Lemma escapeBytes_safe (a : ascii) :
  strings.ContainsByte escapeBytes a = true -> querySafeByte a = true.
Proof. intros H. unfold escapeBytes in H. one_of H a ltac:(reflexivity). Qed.

Lemma QueryEscape_safe (s : string) :
  strings.forallb querySafeByte (url.QueryEscape s) = true.
Proof.
  unfold url.QueryEscape.
  assert (Hhex : forall i, querySafeByte (Byte_.hexdigit Byte_.upperhex i) = true).
  { intros i. apply escapeBytes_safe. unfold escapeBytes.
    rewrite ContainsByte_app, hexdigit_upper. apply orb_true_r. }
  induction s as [|a s IH]; [reflexivity|].
  rewrite escape_cons.
  destruct (Byte_.eqb a " " && url.isQueryMode url.encodeQueryComponent).
  - cbn [strings.forallb]. now rewrite IH.
  - destruct (url.shouldEscape a url.encodeQueryComponent) eqn:Ea.
    + cbn [strings.forallb]. now rewrite !Hhex, IH.
    + cbn [strings.forallb]. now rewrite (unescaped_query_byte_safe a Ea), IH.
Qed.

Lemma Join_safe (l : list (string * string)) :
  strings.forallb querySafeByte (strings.Join (encoded_pair <$> l) "&") = true.
Proof.
  induction l as [|kv l IH]; [reflexivity|].
  cbn [fmap list_fmap]. rewrite Join_cons, forallb_app.
  unfold encoded_pair at 1. rewrite !forallb_app, !QueryEscape_safe. cbn [andb].
  destruct l as [|kv' l]; [reflexivity|].
  cbn [fmap list_fmap] in IH |- *. rewrite forallb_app, IH. reflexivity.
Qed.

(** X16.  Whatever bytes the keys and values of the parameters hold, the
    query of the request is made of ASCII letters, digits and the marks
    [- _ . ~ % + = &] only: no space, no control character, no [#], no
    [?], no byte outside ASCII reaches the request line. *)
Theorem NewRequest_query_bytes c P method endpoint req :
  NewRequest Q c P method endpoint = (Some req, None) ->
  strings.forallb querySafeByte (url.RawQuery (http.Request.URL req)) = true.
Proof.
  intros H. rewrite (NewRequest_RawQuery Q _ _ _ _ _ H).
  destruct (Values_Encode_single_valued P) as (l & _ & _ & ->). apply Join_safe.
Qed.

(** X14.  The query of the request is made from the parameters alone: a
    query that the base URL of the client has is replaced, not kept and
    not merged, and with no parameters the request has no query. *)
Theorem NewRequest_query_replaces_base_query c P method endpoint req :
  NewRequest Q c P method endpoint = (Some req, None) ->
  url.RawQuery (http.Request.URL req) = url.Values_Encode (single_valued P)
  /\ (P = ∅ -> url.RawQuery (http.Request.URL req) = EmptyString).
Proof.
  intros H. rewrite (NewRequest_RawQuery Q _ _ _ _ _ H).
  split; [reflexivity|]. intros ->. reflexivity.
Qed.

(** X15.  Outside the header, [NewRequest] does not depend on the token: two
    clients with the same base URL, whatever their tokens, get requests that
    agree on every field but the header, and get the same error when the
    call fails. *)
Theorem NewRequest_token_only_in_header c1 c2 P method endpoint :
  URL c1 = URL c2 ->
  request_sans_header <$> fst (NewRequest Q c1 P method endpoint)
  = request_sans_header <$> fst (NewRequest Q c2 P method endpoint)
  /\ snd (NewRequest Q c1 P method endpoint) = snd (NewRequest Q c2 P method endpoint).
Proof.
  intros H. unfold NewRequest. rewrite H.
  destruct (url.Parse Q (URL c2)) as [u|e]; [|split; reflexivity].
  destruct (http.NewRequest Q method _) as [req|e]; split; reflexivity.
Qed.

(** X13.  In whatever order the loop over [params] visits the pairs of the
    map, it builds the same values, one per key, and so the same query. *)
Theorem range_order_irrelevant (l : list (string * string)) P :
  l ≡ₚ map_to_list P ->
  range_Add l ∅ = single_valued P
  /\ range_Add l ∅ = range_Add (map_to_list P) ∅
  /\ url.Values_Encode (range_Add l ∅)
     = url.Values_Encode (range_Add (map_to_list P) ∅).
Proof.
  intros Hl.
  rewrite (range_Add_any_order l P Hl).
  rewrite (range_Add_any_order (map_to_list P) P) by reflexivity. auto.
Qed.

(** The base URL of the client of [NewClient], with the query [q]: what
    [Parse] makes of what [String] wrote. *)
Lemma Parse_default_written (q : string) :
  plain q -> url.stringContainsCTLByte q = false ->
  url.Parse Q
    (url.URL_String
       (url.mkURL "https" EmptyString None "api.digitalocean.com" "/v2"
          EmptyString false false q EmptyString EmptyString))
  = inl (url.mkURL "https" EmptyString None "api.digitalocean.com" "/v2"
           EmptyString false false q EmptyString EmptyString).
Proof.
  intros [Hq1 Hq2] Hctl.
  destruct q as [|a q']; [vm_compute; reflexivity|].
  set (q := String a q') in *.
  change (url.URL_String
            (url.mkURL "https" EmptyString None "api.digitalocean.com" "/v2"
               EmptyString false false q EmptyString EmptyString))
    with ("https" +:+ String ":" ("//api.digitalocean.com/v2" +:+ String "?" q)).
  set (rest := "//api.digitalocean.com/v2" +:+ String "?" q).
  set (raw := "https" +:+ String ":" rest).
  assert (Hhash : strings.ContainsByte raw "#" = false).
  { unfold raw, rest. change (String "?" q) with ("?" +:+ q).
    change (String ":" ?x) with (":" +:+ x).
    rewrite !ContainsByte_app, Hq2. reflexivity. }
  assert (Hraw_ctl : url.stringContainsCTLByte raw = false).
  { unfold raw, rest. change (String "?" q) with ("?" +:+ q).
    change (String ":" ?x) with (":" +:+ x).
    rewrite !stringContainsCTLByte_app, Hctl. reflexivity. }
  assert (Hforces : strings.HasSuffixByte rest "?" && (strings.CountByte rest "?" =? 1) = false).
  { unfold rest. rewrite HasSuffixByte_app_cons.
    change (strings.HasSuffixByte (String "?" q) "?") with (strings.HasSuffixByte q "?").
    now rewrite (HasSuffixByte_absent _ _ Hq1). }
  assert (Hcut : strings.Cut rest "?" = ("//api.digitalocean.com/v2", q, true)).
  { unfold rest. now apply Cut_at. }
  assert (Hsch : url.getScheme raw = Ok ("https", rest)).
  { unfold url.getScheme, raw. now rewrite getScheme_loop_alpha. }
  assert (Hstar : String.eqb raw "*" = false) by reflexivity.
  unfold url.Parse. rewrite (Cut_absent _ _ Hhash).
  unfold url.parse. rewrite Hraw_ctl, Hstar, Hsch. cbn [bind Ok andb].
  rewrite Hforces, Hcut.
  vm_compute. reflexivity.
Qed.

(** X12.  For the client that [NewClient] returns, whatever the token, and
    for every parameter map, every valid method and every endpoint,
    [NewRequest] succeeds, and the request goes to the default API: scheme
    [https], host [api.digitalocean.com], path [/v2], and as target the
    base URL, followed by [?] and the encoded parameters when there are
    any. *)
Theorem NewRequest_default_client
  (token : string) c P (method endpoint : string) :
  NewClient token = (Some c, None) ->
  http.validMethod method = true ->
  exists req,
    NewRequest Q c P method endpoint = (Some req, None)
    /\ http.Request.Method req = method
    /\ http.Request.Host req = "api.digitalocean.com"
    /\ url.Scheme (http.Request.URL req) = "https"
    /\ url.Path (http.Request.URL req) = "/v2"
    /\ url.URL_String (http.Request.URL req)
       = (if url.nonEmpty (url.Values_Encode (single_valued P))
          then DIGITALOCEAN_API_URL +:+ "?" +:+ url.Values_Encode (single_valued P)
          else DIGITALOCEAN_API_URL).
Proof.
  unfold NewClient. intros [= <-] Hm.
  unfold NewRequest. cbn [URL].
  change (url.Parse Q DIGITALOCEAN_API_URL)
    with (@inl url.URL error
            (url.mkURL "https" EmptyString None "api.digitalocean.com" "/v2"
               EmptyString false false EmptyString EmptyString EmptyString)).
  rewrite (range_Add_any_order (map_to_list P) P) by reflexivity.
  destruct (Values_Encode_single_valued P) as (l & _ & _ & Henc). rewrite Henc.
  set (q := strings.Join (encoded_pair <$> l) "&").
  change (url.set_RawQuery _ q)
    with (url.mkURL "https" EmptyString None "api.digitalocean.com" "/v2"
            EmptyString false false q EmptyString EmptyString).
  unfold http.NewRequest.
  assert (Hmethod : (if String.eqb method EmptyString then "GET" else method) = method).
  { destruct method; [discriminate|reflexivity]. }
  rewrite Hmethod, Hm, Parse_default_written;
    [|split; now apply Join_avoids|apply Join_no_CTL].
  cbn [negb bind Ok]. eexists. split; [reflexivity|].
  cbn [http.Request_Header_Add http.Request.Method http.Request.Host http.Request.URL].
  repeat split.
Qed.

End QueryMore.

(** The theorem at a client whose base URL has a query, without
    parameters. *)
Lemma NewRequest_query_replaces_base_query_witness :
  exists req,
    NewRequest quote_plain client_with_query ∅ "GET" "/droplets" = (Some req, None)
    /\ url.RawQuery (http.Request.URL req) = url.Values_Encode (single_valued ∅)
    /\ ((∅ : gmap string string) = ∅ -> url.RawQuery (http.Request.URL req) = EmptyString).
Proof.
  eexists. split; [vm_compute; reflexivity|].
  apply (NewRequest_query_replaces_base_query quote_plain client_with_query ∅
           "GET" "/droplets").
  vm_compute. reflexivity.
Defined.

(** The theorem at parameters with a space, an ampersand and a byte
    outside ASCII. *)
Lemma NewRequest_query_bytes_witness :
  exists req,
    NewRequest quote_plain sample_client
      (<["name" := "a b&c=d"]> (<["tag" := String (Byte_.of_Z 233) "#?"]> ∅))
      "GET" "/droplets" = (Some req, None)
    /\ strings.forallb querySafeByte (url.RawQuery (http.Request.URL req)) = true.
Proof.
  eexists. split; [vm_compute; reflexivity|].
  apply (NewRequest_query_bytes quote_plain sample_client
           (<["name" := "a b&c=d"]> (<["tag" := String (Byte_.of_Z 233) "#?"]> ∅))
           "GET" "/droplets").
  vm_compute. reflexivity.
Defined.

(** The theorem at two clients with different tokens. *)
Lemma NewRequest_token_only_in_header_witness :
  request_sans_header <$>
    fst (NewRequest quote_plain sample_client sample_params "GET" "/droplets")
  = request_sans_header <$>
      fst (NewRequest quote_plain
             {| Token := "another token"; URL := DIGITALOCEAN_API_URL; Http := None |}
             sample_params "GET" "/droplets")
  /\ snd (NewRequest quote_plain sample_client sample_params "GET" "/droplets")
     = snd (NewRequest quote_plain
              {| Token := "another token"; URL := DIGITALOCEAN_API_URL; Http := None |}
              sample_params "GET" "/droplets").
Proof.
  apply (NewRequest_token_only_in_header quote_plain sample_client
           {| Token := "another token"; URL := DIGITALOCEAN_API_URL; Http := None |}).
  reflexivity.
Defined.

(** The theorem at the pairs of the sample parameters in reverse order. *)
Lemma range_order_irrelevant_witness :
  range_Add (reverse (map_to_list sample_params)) ∅ = single_valued sample_params
  /\ range_Add (reverse (map_to_list sample_params)) ∅
     = range_Add (map_to_list sample_params) ∅
  /\ url.Values_Encode (range_Add (reverse (map_to_list sample_params)) ∅)
     = url.Values_Encode (range_Add (map_to_list sample_params) ∅).
Proof.
  apply (range_order_irrelevant (reverse (map_to_list sample_params)) sample_params).
  apply (bool_decide_unpack _). vm_compute. exact I.
Defined.

(** The theorem at the token [tok] and the method [DELETE]. *)
Lemma NewRequest_default_client_witness :
  exists req,
    NewRequest quote_plain sample_client sample_params "DELETE" "/droplets/1"
    = (Some req, None)
    /\ http.Request.Method req = "DELETE"
    /\ http.Request.Host req = "api.digitalocean.com"
    /\ url.Scheme (http.Request.URL req) = "https"
    /\ url.Path (http.Request.URL req) = "/v2"
    /\ url.URL_String (http.Request.URL req)
       = (if url.nonEmpty (url.Values_Encode (single_valued sample_params))
          then DIGITALOCEAN_API_URL +:+ "?" +:+ url.Values_Encode (single_valued sample_params)
          else DIGITALOCEAN_API_URL).
Proof.
  apply (NewRequest_default_client quote_plain "tok" sample_client sample_params
           "DELETE" "/droplets/1").
  - vm_compute. reflexivity.
  - vm_compute. reflexivity.
Defined.

(* ================================================================== *)
(** * Bodies that are empty or not JSON *)

Section NotJSON.

Implicit Types (r : http.Response.t) (s rest : string) (c : ascii).

Lemma checkValid_loop_spaces s n :
  strings.forallb json.isSpace s = true ->
  exists off,
    json.checkValid_loop s (json.mkScanner json.stateBeginValue false [] None n)
    = Some (SyntaxError "unexpected end of JSON input" off).
Proof.
  revert n. induction s as [|c s IH]; intros n Hs.
  - exists n. reflexivity.
  - cbn [strings.forallb] in Hs. apply andb_prop in Hs as [Hc Hs].
    destruct (IH (n + 1) Hs) as [off Hoff]. exists off.
    rewrite checkValid_loop_cons.
    cbn [json.step json.endTop json.parseStack json.err json.bytes].
    unfold json.do_step. cbn [json.step]. unfold json.do_stateBeginValue.
    rewrite Hc. cbn [fst snd json.is_scanError]. exact Hoff.
Qed.

(** X7.  A response whose body is empty, or white space only (any 204
    answer), cannot be decoded: with a nil transport error [checkResp]
    returns the error [Error parsing error body for non-200 request:
    unexpected end of JSON input], whatever the status code. *)
Theorem checkResp_empty_body r :
  io.failure (http.Response.Body r) = None ->
  strings.forallb json.isSpace (io.unread (http.Response.Body r)) = true ->
  checkResp (Some r) None
  = Returns (Some (consumed r),
             Some (errorString
                     ("Error parsing error body for non-200 request: "
                      +:+ "unexpected end of JSON input"))).
Proof.
  intros Hf Hs.
  destruct (checkValid_loop_spaces _ 0 Hs) as [off Hoff].
  rewrite checkResp_nil_err, parseErr_spec. cbn [fst snd].
  rewrite (decode_error_invalid _ _ Hf Hoff). reflexivity.
Qed.

(** The theorem at a 204 answer without body. *)
Lemma checkResp_empty_body_witness :
  checkResp (Some (fresh_response 204 EmptyString)) None
  = Returns (Some (consumed (fresh_response 204 EmptyString)),
             Some (errorString
                     ("Error parsing error body for non-200 request: "
                      +:+ "unexpected end of JSON input"))).
Proof.
  apply checkResp_empty_body; vm_compute; reflexivity.
Defined.

(** X8.  A body whose first byte is neither white space nor the start of
    a JSON value (an HTML error page, a plain text message) yields the
    error [Error parsing error body for non-200 request: invalid character
    <the byte, quoted> looking for beginning of value]; nothing more of the
    body reaches the error. *)
Theorem checkResp_not_json r c rest :
  io.failure (http.Response.Body r) = None ->
  io.unread (http.Response.Body r) = String c rest ->
  jsonValueStart c = false ->
  checkResp (Some r) None
  = Returns (Some (consumed r),
             Some (errorString
                     ("Error parsing error body for non-200 request: "
                      +:+ "invalid character " +:+ json.quoteChar c
                      +:+ " looking for beginning of value"))).
Proof.
  intros Hf Hb Hc.
  assert (Hv : json.checkValid (String c rest)
               = Some (SyntaxError ("invalid character " +:+ json.quoteChar c +:+ " "
                                    +:+ "looking for beginning of value") 1)).
  { unfold jsonValueStart in Hc.
    repeat match type of Hc with
           | _ || _ = false => apply orb_false_elim in Hc as [Hc ?]
           end.
    unfold json.checkValid. rewrite checkValid_loop_cons.
    cbn [json.step json.endTop json.parseStack json.err json.bytes].
    unfold json.do_step. cbn [json.step]. unfold json.do_stateBeginValue.
    repeat match goal with
           | H : _ = false |- _ => rewrite H; clear H
           end.
    reflexivity. }
  rewrite <- Hb in Hv.
  rewrite checkResp_nil_err, parseErr_spec. cbn [fst snd].
  rewrite (decode_error_invalid _ _ Hf Hv). reflexivity.
Qed.

(** The theorem at the error page of a gateway. *)
Lemma checkResp_not_json_witness :
  checkResp (Some (fresh_response 502 "<html><body>502 Bad Gateway</body></html>")) None
  = Returns (Some (consumed
                     (fresh_response 502 "<html><body>502 Bad Gateway</body></html>")),
             Some (errorString
                     ("Error parsing error body for non-200 request: "
                      +:+ "invalid character " +:+ json.quoteChar "<"
                      +:+ " looking for beginning of value"))).
Proof.
  apply (checkResp_not_json
           (fresh_response 502 "<html><body>502 Bad Gateway</body></html>")
           "<" "html><body>502 Bad Gateway</body></html>");
    vm_compute; reflexivity.
Defined.

End NotJSON.
